(** * Workboard task manager: request validation and persistence consistency

    A shallow embedding of [backend/main.py] and [backend/database.py]
    (FastAPI handlers over a SQLAlchemy session bound to a SQLite file).

    Conventions of the embedding.
    - A Python [str] is a [string]; each character stands for the code
      point of the same number (U+0000 to U+00FF).
    - A [datetime] without time zone is a [Z], the microseconds its
      calendar and clock fields count; [datetime.utcnow()] and the values
      of a [DateTime] column are such.  A [datetime] in a request body may
      carry a UTC offset: see [datetime.t].
    - A JSON request body is taken after decoding, with every known key
      either left out, [null], or a value of the declared type: see [field].
    - The table [task_items] is the list of its rows in rowid order.  The
      column [id] is an [INTEGER PRIMARY KEY] declared without
      [AUTOINCREMENT], so SQLite gives a new row the largest rowid in the
      table plus one, and 1 in an empty table ([next_rowid]).
    - [ORDER BY added_on DESC] scans the table in rowid order and sorts
      with SQLite's merge sorter, which keeps rows of equal key in scan
      order ([order_by_added_on_desc]).
    - [datetime.utcnow()] is an input of the request that reads it.
    - SQLite integers have 64 bits.  The ids named in requests are taken
      in that range ([fits_int64]); a query cannot bind an id outside it.
      Statements about ids that are not stored say so. *)

From Stdlib Require Import ZArith List String Ascii Bool Lia.
From Stdlib Require Import Sorting.Sorted Sorting.Permutation.
Import ListNotations.
Open Scope string_scope.
Open Scope list_scope.
Open Scope Z_scope.

(** ** Errors and the handler monad *)

(** What a request can fail with: 422 (pydantic [ValueError]), 404
    ([HTTPException(status_code=404)] naming the id) and 500 (an exception
    nobody handles: [IntegrityError] at commit, a response that does not
    fit [response_model]). *)
Inductive error : Type :=
| InvalidInput
| NotFound (task_id : Z)
| ServerError.

Inductive result (A : Type) : Type :=
| Ok (a : A)
| Err (e : error).
Arguments Ok {A} a.
Arguments Err {A} e.

Definition result_bind {A B} (r : result A) (k : A -> result B) : result B :=
  match r with
  | Ok a => k a
  | Err e => Err e
  end.

Definition is_ok {A} (r : result A) : bool :=
  match r with Ok _ => true | Err _ => false end.

(** ** Python string helpers *)

(** [str.isspace] on one character, for the code points below 256:
    U+0009..U+000D, U+001C..U+001F, U+0020, U+0085 and U+00A0. *)
Definition isspace (c : ascii) : bool :=
  let n := Z.of_nat (nat_of_ascii c) in
  ((9 <=? n) && (n <=? 13)) || ((28 <=? n) && (n <=? 32))
  || (n =? 133) || (n =? 160).

Fixpoint lstrip (s : string) : string :=
  match s with
  | EmptyString => EmptyString
  | String c s' => if isspace c then lstrip s' else s
  end.

Fixpoint rstrip (s : string) : string :=
  match s with
  | EmptyString => EmptyString
  | String c s' =>
      match rstrip s' with
      | EmptyString => if isspace c then EmptyString else String c EmptyString
      | r => String c r
      end
  end.

(** [v.strip()] *)
Definition strip (s : string) : string := lstrip (rstrip s).

(** Truth value of a [str]: the empty string is false. *)
Definition truthy (s : string) : bool :=
  match s with EmptyString => false | String _ _ => true end.

(** Whitespace-only (or empty), in the words of the specification. *)
Definition whitespace_only (s : string) : bool :=
  forallb isspace (list_ascii_of_string s).

(** ** Request bodies *)

(** One key of a JSON body: left out, explicit [null], or a value. *)
Inductive field (A : Type) : Type :=
| Unset
| Null
| Val (a : A).
Arguments Unset {A}.
Arguments Null {A}.
Arguments Val {A} a.

(** The value pydantic sees for a key: [None] for [null]. *)
Definition supplied {A} (f : field A) : option (option A) :=
  match f with
  | Unset => None
  | Null => Some None
  | Val a => Some (Some a)
  end.

(** *** [datetime] values *)
Module datetime.
(** The calendar and clock fields, and the UTC offset of the time zone
    when the value has one ([tzinfo]). *)
Record t : Type := mk {
  wall : Z;
  utcoffset : option Z
}.
End datetime.

Module Body.
Record t : Type := mk {
  title : field string;
  notes : field string;
  progress : field string;
  deadline : field datetime.t
}.
End Body.

(** [VALID_STATUSES = {"pending", "in_progress", "completed"}] *)
Definition VALID_STATUSES : list string :=
  ["pending"; "in_progress"; "completed"].

(** [v in VALID_STATUSES], for [v] a [str] or [None]. *)
Definition in_valid_statuses (v : option string) : bool :=
  match v with
  | None => false
  | Some s => existsb (String.eqb s) VALID_STATUSES
  end.

(** *** [class NewTask(BaseModel)] *)
Module NewTask.
Record t : Type := mk {
  title : string;
  notes : option string;
  progress : option string;
  deadline : option datetime.t
}.

(** [@validator("title")]:
    [if not v or not v.strip(): raise ValueError(...)], [return v.strip()] *)
Definition title_must_exist (v : string) : result string :=
  if negb (truthy v) || negb (truthy (strip v))
  then Err InvalidInput
  else Ok (strip v).

(** [@validator("progress")]:
    [if v not in VALID_STATUSES: raise ValueError(...)], [return v] *)
Definition progress_must_be_valid (v : option string) : result (option string) :=
  if negb (in_valid_statuses v) then Err InvalidInput else Ok v.

(** [title: str]: required and not nullable; then the validator. *)
Definition validate_title (f : field string) : result string :=
  match f with
  | Unset => Err InvalidInput
  | Null => Err InvalidInput
  | Val v => title_must_exist v
  end.

(** [notes: Optional[str] = None], [deadline: Optional[datetime] = None] *)
Definition validate_optional {A} (f : field A) : option A :=
  match f with
  | Unset => None
  | Null => None
  | Val a => Some a
  end.

(** [progress: Optional[str] = "pending"]: the validator is not [always],
    so a key left out takes the default unchecked; a supplied value,
    [None] included, goes through the validator. *)
Definition validate_progress (f : field string) : result (option string) :=
  match supplied f with
  | None => Ok (Some "pending")
  | Some v => progress_must_be_valid v
  end.

(** Building the model from the body; pydantic validates every field
    and raises when any of them failed. *)
Definition parse (b : Body.t) : result t :=
  match validate_title (Body.title b), validate_progress (Body.progress b) with
  | Ok ti, Ok pr =>
      Ok (mk ti (validate_optional (Body.notes b)) pr
             (validate_optional (Body.deadline b)))
  | _, _ => Err InvalidInput
  end.
End NewTask.

(** *** [class EditTask(BaseModel)] *)
Module EditTask.
(** The model keeps, for each key, whether it was set
    ([__fields_set__]) and its value. *)
Record t : Type := mk {
  title : field string;
  notes : field string;
  progress : field string;
  deadline : field datetime.t
}.

(** [@validator("progress", pre=True, always=True)]:
    [if v is not None and v not in VALID_STATUSES: raise ValueError(...)] *)
Definition check_progress (v : option string) : result (option string) :=
  match v with
  | None => Ok v
  | Some _ => if negb (in_valid_statuses v) then Err InvalidInput else Ok v
  end.

(** [always=True]: the validator also runs on the default [None] of a
    key that was left out. *)
Definition validate_progress (f : field string) : result (field string) :=
  let v := match supplied f with None => None | Some v => v end in
  result_bind (check_progress v) (fun _ => Ok f).

Definition parse (b : Body.t) : result t :=
  result_bind (validate_progress (Body.progress b)) (fun pr =>
    Ok (mk (Body.title b) (Body.notes b) pr (Body.deadline b))).
End EditTask.

(** ** The table [task_items] *)

(** *** [class TaskItem(Base)] *)
Module TaskItem.
(** A row of the table with its six columns, which is what an object
    holds when a query or a refresh has loaded it.  Python lets any
    attribute hold [None]; [nullable=False] on [title] is checked by the
    store when the row is written ([not_null]). *)
Record t : Type := mk {
  id : Z;
  title : option string;
  notes : option string;
  progress : option string;
  added_on : Z;
  deadline : option Z
}.

(** [title = Column(String(255), nullable=False, ...)] *)
Definition not_null (task : t) : bool :=
  match title task with Some _ => true | None => false end.
End TaskItem.

(** *** A [TaskItem] object in the session *)
Module Mapped.
(** The attributes of an object between the query that loaded it and the
    commit: as the row has them, but [deadline] holds the [datetime] it
    was assigned, time zone included. *)
Record t : Type := mk {
  id : Z;
  title : option string;
  notes : option string;
  progress : option string;
  added_on : Z;
  deadline : option datetime.t
}.

(** What a query loads: a [DateTime] column gives a [datetime] without
    time zone. *)
Definition load (row : TaskItem.t) : t :=
  mk (TaskItem.id row) (TaskItem.title row) (TaskItem.notes row)
     (TaskItem.progress row) (TaskItem.added_on row)
     (option_map (fun w => datetime.mk w None) (TaskItem.deadline row)).

(** What the flush writes and the refresh reads back: the [DateTime]
    type of the SQLite dialect stores the calendar and clock fields of
    the value and leaves its time zone out. *)
Definition flush (task : t) : TaskItem.t :=
  TaskItem.mk (id task) (title task) (notes task) (progress task)
    (added_on task) (option_map datetime.wall (deadline task)).
End Mapped.

(** The rows of the table, in rowid order. *)
Definition Store : Type := list TaskItem.t.

Definition ids (db : Store) : list Z := map TaskItem.id db.

(** Largest rowid in use, if any. *)
Definition max_rowid (db : Store) : option Z :=
  match ids db with
  | [] => None
  | i :: rest => Some (fold_left Z.max rest i)
  end.

(** The rowid SQLite picks for an [INSERT] that names none: one more than
    the largest rowid in use, and 1 in an empty table.  Rowids of deleted
    rows are not remembered.  (Rowids are 64-bit; the table is taken never
    to reach the rowid 2^63-1, after which SQLite probes at random.) *)
Definition next_rowid (db : Store) : Z :=
  match max_rowid db with
  | None => 1
  | Some m => m + 1
  end.

(** [db.query(TaskItem).filter(TaskItem.id == task_id).first()] *)
Definition query_first (task_id : Z) (db : Store) : option TaskItem.t :=
  find (fun r => TaskItem.id r =? task_id) db.

(** [UPDATE task_items SET ... WHERE id = ?], with the id and the new
    column values of [task]. *)
Definition write_row (task : TaskItem.t) (db : Store) : Store :=
  map (fun r => if TaskItem.id r =? TaskItem.id task then task else r) db.

(** [DELETE FROM task_items WHERE id = ?] *)
Definition drop_row (task_id : Z) (db : Store) : Store :=
  filter (fun r => negb (TaskItem.id r =? task_id)) db.

(** Placing a row in front of the rows that do not have a later
    [added_on]: one step of a stable descending sort. *)
Fixpoint insert_desc (x : TaskItem.t) (l : list TaskItem.t) : list TaskItem.t :=
  match l with
  | [] => [x]
  | y :: l' =>
      if TaskItem.added_on x <? TaskItem.added_on y
      then y :: insert_desc x l'
      else x :: l
  end.

(** [db.query(TaskItem).order_by(TaskItem.added_on.desc()).all()] *)
Definition order_by_added_on_desc (db : Store) : list TaskItem.t :=
  fold_right insert_desc [] db.

(** ** The session: state and exceptions *)

(** A handler runs against the store and either returns or raises; what
    it raised before a commit leaves the store as it was. *)
Definition M (A : Type) : Type := Store -> result A * Store.

Definition ret {A} (a : A) : M A := fun db => (Ok a, db).

Definition raise {A} (e : error) : M A := fun db => (Err e, db).

Definition bind {A B} (m : M A) (k : A -> M B) : M B :=
  fun db =>
    match m db with
    | (Ok a, db') => k a db'
    | (Err e, db') => (Err e, db')
    end.

Notation "x <- m ;; k" := (bind m (fun x => k))
  (at level 61, m at next level, right associativity).

(** [task = TaskItem(...)], [db.add(task)], [db.commit()], [db.refresh(task)]:
    the [INSERT].  The column defaults fill what the object left at
    [None]: [default="pending"] and [default=datetime.utcnow]. *)
Definition add_commit (now : Z) (title notes progress : option string)
    (deadline : option datetime.t) : M TaskItem.t :=
  fun db =>
    let progress' :=
      match progress with None => Some "pending" | Some _ => progress end in
    let task :=
      Mapped.flush
        (Mapped.mk (next_rowid db) title notes progress' now deadline) in
    if TaskItem.not_null task
    then (Ok task, db ++ [task])
    else (Err ServerError, db).

(** [db.commit()], [db.refresh(task)] on a modified object: the [UPDATE]
    of the row with the object's primary key, and the row read back. *)
Definition update_commit (task : Mapped.t) : M TaskItem.t :=
  fun db =>
    let row := Mapped.flush task in
    if TaskItem.not_null row
    then (Ok row, write_row row db)
    else (Err ServerError, db).

(** [db.delete(task)], [db.commit()]: the [DELETE] of that row. *)
Definition delete_commit (task : TaskItem.t) : M unit :=
  fun db =>
    (Ok tt, drop_row (TaskItem.id task) db).

(** ** Handlers *)

(** The range of a 64-bit signed integer. *)
Definition fits_int64 (z : Z) : bool :=
  (- 2 ^ 63 <=? z) && (z <? 2 ^ 63).

(** [fetch_task_or_404], for a [task_id] in the range of an SQLite
    integer ([fits_int64]).  Outside that range the query cannot bind the
    id and raises [OverflowError]; the embedding does not follow that
    case, and what is stated of an id that is not stored is stated of ids
    in the range. *)
Definition fetch_task_or_404 (task_id : Z) : M TaskItem.t :=
  fun db =>
    match query_first task_id db with
    | None => raise (NotFound task_id) db
    | Some task => ret task db
    end.

(** [create_task] *)
Definition create_task (now : Z) (payload : NewTask.t) : M TaskItem.t :=
  add_commit now
    (Some (NewTask.title payload))
    (NewTask.notes payload)
    (NewTask.progress payload)
    (NewTask.deadline payload).

(** [get_all_tasks] *)
Definition get_all_tasks : M (list TaskItem.t) :=
  fun db => ret (order_by_added_on_desc db) db.

(** [get_single_task] *)
Definition get_single_task (task_id : Z) : M TaskItem.t :=
  fetch_task_or_404 task_id.

(** One item of [payload.dict(exclude_unset=True)]: a field name with the
    value to assign. *)
Inductive change : Type :=
| SetTitle (v : option string)
| SetNotes (v : option string)
| SetProgress (v : option string)
| SetDeadline (v : option datetime.t).

Definition item {A} (mk : option A -> change) (f : field A) : list change :=
  match supplied f with
  | None => []
  | Some v => [mk v]
  end.

(** [payload.dict(exclude_unset=True)], in the order of the fields. *)
Definition dict_exclude_unset (payload : EditTask.t) : list change :=
  item SetTitle (EditTask.title payload)
  ++ item SetNotes (EditTask.notes payload)
  ++ item SetProgress (EditTask.progress payload)
  ++ item SetDeadline (EditTask.deadline payload).

(** [setattr(task, field, value)] *)
Definition setattr (task : Mapped.t) (c : change) : Mapped.t :=
  let '(Mapped.mk i ti no pr ad de) := task in
  match c with
  | SetTitle v => Mapped.mk i v no pr ad de
  | SetNotes v => Mapped.mk i ti v pr ad de
  | SetProgress v => Mapped.mk i ti no v ad de
  | SetDeadline v => Mapped.mk i ti no pr ad v
  end.

(** [update_task] *)
Definition update_task (task_id : Z) (payload : EditTask.t) : M TaskItem.t :=
  task <- fetch_task_or_404 task_id ;;
  let changes := dict_exclude_unset payload in
  let task := fold_left setattr changes (Mapped.load task) in
  update_commit task.

(** [remove_task] *)
Definition remove_task (task_id : Z) : M unit :=
  task <- fetch_task_or_404 task_id ;;
  delete_commit task.

(** ** Routes: body validation, handler, [response_model] *)

(** *** [class TaskOut(BaseModel)], [orm_mode = True] *)
Module TaskOut.
Record t : Type := mk {
  id : Z;
  title : string;
  notes : option string;
  progress : string;
  added_on : Z;
  deadline : option Z
}.

(** [title: str] and [progress: str] do not take [None]: the response
    does not validate and the request ends in a server error. *)
Definition from_orm (task : TaskItem.t) : result t :=
  match TaskItem.title task, TaskItem.progress task with
  | Some ti, Some pr =>
      Ok (mk (TaskItem.id task) ti (TaskItem.notes task) pr
             (TaskItem.added_on task) (TaskItem.deadline task))
  | _, _ => Err ServerError
  end.

(** [response_model=List[TaskOut]] *)
Fixpoint from_orm_list (tasks : list TaskItem.t) : result (list t) :=
  match tasks with
  | [] => Ok []
  | task :: rest =>
      result_bind (from_orm task) (fun o =>
      result_bind (from_orm_list rest) (fun os => Ok (o :: os)))
  end.
End TaskOut.

(** The framework around a handler: the body is parsed into the declared
    model before the handler is called, and what the handler returns is
    validated against the response model after it has run. *)
Definition route {P A B} (parse : result P) (handler : P -> M A)
    (response_model : A -> result B) : M B :=
  fun db =>
    match parse with
    | Err e => (Err e, db)
    | Ok payload =>
        let '(r, db') := handler payload db in
        (result_bind r response_model, db')
    end.

(** [POST /api/tasks] *)
Definition POST_tasks (now : Z) (body : Body.t) : M TaskOut.t :=
  route (NewTask.parse body) (create_task now) TaskOut.from_orm.

(** [GET /api/tasks] *)
Definition GET_tasks : M (list TaskOut.t) :=
  route (Ok tt) (fun _ => get_all_tasks) TaskOut.from_orm_list.

(** [GET /api/tasks/{task_id}] *)
Definition GET_task (task_id : Z) : M TaskOut.t :=
  route (Ok tt) (fun _ => get_single_task task_id) TaskOut.from_orm.

(** [PUT /api/tasks/{task_id}] *)
Definition PUT_task (task_id : Z) (body : Body.t) : M TaskOut.t :=
  route (EditTask.parse body) (update_task task_id) TaskOut.from_orm.

(** [DELETE /api/tasks/{task_id}], [status_code=204] *)
Definition DELETE_task (task_id : Z) : M unit :=
  route (Ok tt) (fun _ => remove_task task_id) (fun u => Ok u).

(** ** Sequences of requests *)

Inductive request : Type :=
| Create (now : Z) (body : Body.t)
| ListAll
| GetOne (task_id : Z)
| Update (task_id : Z) (body : Body.t)
| Delete (task_id : Z).

Inductive response : Type :=
| Created (task : TaskOut.t)
| Listed (tasks : list TaskOut.t)
| Fetched (task : TaskOut.t)
| Updated (task : TaskOut.t)
| NoContent
| Failed (e : error).

Definition reply {A} (ok : A -> response) (r : result A * Store)
    : response * Store :=
  match r with
  | (Ok a, db) => (ok a, db)
  | (Err e, db) => (Failed e, db)
  end.

Definition handle (rq : request) (db : Store) : response * Store :=
  match rq with
  | Create now body => reply Created (POST_tasks now body db)
  | ListAll => reply Listed (GET_tasks db)
  | GetOne task_id => reply Fetched (GET_task task_id db)
  | Update task_id body => reply Updated (PUT_task task_id body db)
  | Delete task_id => reply (fun _ => NoContent) (DELETE_task task_id db)
  end.

(** Serving the requests one after the other. *)
Fixpoint run (rqs : list request) (db : Store) : list response * Store :=
  match rqs with
  | [] => ([], db)
  | rq :: rest =>
      let '(rs, db') := handle rq db in
      let '(rss, db'') := run rest db' in
      (rs :: rss, db'')
  end.

(** The ids handed out by the creations of a run. *)
Fixpoint issued_ids (rs : list response) : list Z :=
  match rs with
  | [] => []
  | Created task :: rest => TaskOut.id task :: issued_ids rest
  | _ :: rest => issued_ids rest
  end.

(** Bodies used in examples. *)
Definition body_title (s : string) : Body.t :=
  Body.mk (Val s) Unset Unset Unset.

Definition empty_body : Body.t := Body.mk Unset Unset Unset Unset.

(** ** Terms of the specification and of the proofs *)

(** The conditions of the validation contract, in the words of the
    specification: the title is not there, or is empty or whitespace-only. *)
Definition title_missing_or_blank (f : field string) : bool :=
  match f with
  | Val s => whitespace_only s
  | _ => true
  end.

(** One of the three enumerated values. *)
Definition enumerated (p : string) : bool :=
  (p =? "pending")%string || (p =? "in_progress")%string
  || (p =? "completed")%string.

(** A progress was supplied (an explicit null counts) and is not one of
    the enumerated values. *)
Definition supplied_progress_not_enumerated (f : field string) : bool :=
  match f with
  | Unset => false
  | Null => true
  | Val p => negb (enumerated p)
  end.

(** The supplied progress, or "pending". *)
Definition progress_or_default (f : field string) : string :=
  match f with
  | Val p => p
  | _ => "pending"
  end.

(** What a [DateTime] column keeps of a [datetime]: its calendar and
    clock fields, without the UTC offset. *)
Definition stored_datetime (d : datetime.t) : Z := datetime.wall d.

(** The row a creation writes and the record it answers with. *)
Definition created_row (now : Z) (b : Body.t) (db : Store) : TaskItem.t :=
  TaskItem.mk (next_rowid db)
    (Some (strip (match Body.title b with Val s => s | _ => "" end)))
    (NewTask.validate_optional (Body.notes b))
    (Some (progress_or_default (Body.progress b)))
    now
    (option_map stored_datetime (NewTask.validate_optional (Body.deadline b))).

Definition created_out (now : Z) (b : Body.t) (db : Store) : TaskOut.t :=
  TaskOut.mk (next_rowid db)
    (strip (match Body.title b with Val s => s | _ => "" end))
    (NewTask.validate_optional (Body.notes b))
    (progress_or_default (Body.progress b))
    now
    (option_map stored_datetime (NewTask.validate_optional (Body.deadline b))).

(** One request either creates a row with the next rowid, or answers
    with something else than a creation and leaves the table alone,
    rewrites one row in place, or drops the rows of one id. *)
Inductive effect (rq : request) (db : Store) : response -> Store -> Prop :=
| effect_insert out row :
    TaskOut.id out = next_rowid db ->
    TaskItem.id row = next_rowid db ->
    TaskItem.not_null row = true ->
    effect rq db (Created out) (db ++ [row])
| effect_none r :
    issued_ids [r] = [] ->
    effect rq db r db
| effect_write r task_id b task :
    issued_ids [r] = [] ->
    rq = Update task_id b ->
    TaskItem.not_null task = true ->
    effect rq db r (write_row task db)
| effect_drop task_id :
    rq = Delete task_id ->
    effect rq db NoContent (drop_row task_id db).

(** Rows in increasing order of id. *)
Definition ascending (db : Store) : Prop :=
  StronglySorted (fun a b => TaskItem.id a < TaskItem.id b) db.

(** The request deletes the record that holds the largest id. *)
Definition deletes_largest (rq : request) (db : Store) : bool :=
  match rq, max_rowid db with
  | Delete task_id, Some m => task_id =? m
  | _, _ => false
  end.

(** No request of the run deletes the record that holds the largest id
    at the time it is served. *)
Fixpoint never_deletes_largest (rqs : list request) (db : Store) : bool :=
  match rqs with
  | [] => true
  | rq :: rest =>
      negb (deletes_largest rq db)
      && never_deletes_largest rest (snd (handle rq db))
  end.

(** Not older than: the order of the listing. *)
Definition not_older (a b : TaskItem.t) : Prop :=
  TaskItem.added_on b <= TaskItem.added_on a.

(** The rows created at a given time, in the order they have in [l]. *)
Definition added_at (ts : Z) (l : list TaskItem.t) : list TaskItem.t :=
  filter (fun r => TaskItem.added_on r =? ts) l.

(** The condition under which the body of an update does not validate,
    in the words of the validator: a progress string outside the
    enumeration. *)
Definition progress_string_not_enumerated (f : field string) : bool :=
  match f with
  | Val p => negb (enumerated p)
  | _ => false
  end.

(** A field of the record after a partial update: the value supplied,
    or the old one when the key was left out. *)
Definition patch {A} (f : field A) (old : option A) : option A :=
  match f with
  | Unset => old
  | Null => None
  | Val a => Some a
  end.

(** The same for the deadline, of which the column keeps the calendar
    and clock fields. *)
Definition patch_deadline (f : field datetime.t) (old : option Z) : option Z :=
  match f with
  | Unset => old
  | Null => None
  | Val d => Some (stored_datetime d)
  end.

Definition patched (b : Body.t) (task : TaskItem.t) : TaskItem.t :=
  TaskItem.mk (TaskItem.id task)
    (patch (Body.title b) (TaskItem.title task))
    (patch (Body.notes b) (TaskItem.notes task))
    (patch (Body.progress b) (TaskItem.progress task))
    (TaskItem.added_on task)
    (patch_deadline (Body.deadline b) (TaskItem.deadline task)).

(** The update is committed when the body validates and the title is
    not set to null. *)
Definition committed (b : Body.t) (task : TaskItem.t) : bool :=
  negb (progress_string_not_enumerated (Body.progress b))
  && TaskItem.not_null (patched b task).

(** The title invariant of the data model on one row. *)
Definition title_ok (r : TaskItem.t) : bool :=
  match TaskItem.title r with
  | Some s => negb (whitespace_only s)
  | None => false
  end.

(** The request is an update. *)
Definition is_update (rq : request) : bool :=
  match rq with Update _ _ => true | _ => false end.

(** ** Terms of the further properties *)

(** First and last character of a string, if it has one. *)
Definition first_char (s : string) : option ascii :=
  match s with
  | EmptyString => None
  | String c _ => Some c
  end.

Fixpoint last_char (s : string) : option ascii :=
  match s with
  | EmptyString => None
  | String c s' =>
      match s' with
      | EmptyString => Some c
      | String _ _ => last_char s'
      end
  end.

(** The request is a deletion. *)
Definition is_delete (rq : request) : bool :=
  match rq with Delete _ => true | _ => false end.

(** The request is an update whose body sets title or progress to an
    explicit null. *)
Definition nulls_title_or_progress (rq : request) : bool :=
  match rq with
  | Update _ b =>
      match Body.title b, Body.progress b with
      | Null, _ => true
      | _, Null => true
      | _, _ => false
      end
  | _ => false
  end.

(** The request names an id outside the range of a 64-bit integer. *)
Definition id_out_of_range (rq : request) : bool :=
  match rq with
  | GetOne task_id => negb (fits_int64 task_id)
  | Update task_id _ => negb (fits_int64 task_id)
  | Delete task_id => negb (fits_int64 task_id)
  | _ => false
  end.

(** The row has a title and one of the enumerated progress values. *)
Definition well_formed (r : TaskItem.t) : bool :=
  TaskItem.not_null r
  && match TaskItem.progress r with
     | Some p => enumerated p
     | None => false
     end.

(** [n] consecutive integers from [start] on. *)
Fixpoint count_from (start : Z) (n : nat) : list Z :=
  match n with
  | O => []
  | S n' => start :: count_from (start + 1) n'
  end.

(** Created strictly earlier. *)
Definition older (a b : TaskItem.t) : Prop :=
  TaskItem.added_on a < TaskItem.added_on b.

(** * Properties *)

(** ** Stripping and blank titles *)

Lemma truthy_false_iff (s : string) : truthy s = false <-> s = "".
Proof. destruct s; simpl; split; congruence. Qed.

Lemma whitespace_only_cons (c : ascii) (s : string) :
  whitespace_only (String c s) = isspace c && whitespace_only s.
Proof. reflexivity. Qed.

Lemma lstrip_empty_iff (s : string) :
  lstrip s = "" <-> whitespace_only s = true.
Proof.
  induction s as [|c s IH]; simpl.
  - split; reflexivity.
  - rewrite whitespace_only_cons. destruct (isspace c); simpl.
    + exact IH.
    + split; discriminate.
Qed.

Lemma rstrip_empty_iff (s : string) :
  rstrip s = "" <-> whitespace_only s = true.
Proof.
  induction s as [|c s IH]; simpl.
  - split; reflexivity.
  - rewrite whitespace_only_cons.
    destruct (rstrip s) as [|d r] eqn:E.
    + assert (W : whitespace_only s = true) by (apply IH; reflexivity).
      rewrite W, andb_true_r. destruct (isspace c); split; congruence.
    + destruct (whitespace_only s) eqn:W.
      * assert (String d r = "") by (apply IH; reflexivity). discriminate.
      * rewrite andb_false_r. split; discriminate.
Qed.

Lemma whitespace_only_rstrip (s : string) :
  whitespace_only (rstrip s) = whitespace_only s.
Proof.
  induction s as [|c s IH]; cbn [rstrip]; [reflexivity|].
  destruct (rstrip s) as [|d r] eqn:E.
  - assert (W : whitespace_only s = true) by (apply rstrip_empty_iff; exact E).
    rewrite (whitespace_only_cons c s), W, andb_true_r.
    destruct (isspace c) eqn:C; [reflexivity|].
    rewrite whitespace_only_cons, C. reflexivity.
  - rewrite (whitespace_only_cons c s), (whitespace_only_cons c (String d r)), IH.
    reflexivity.
Qed.

Lemma strip_empty_iff (s : string) :
  strip s = "" <-> whitespace_only s = true.
Proof.
  unfold strip. rewrite lstrip_empty_iff, whitespace_only_rstrip. tauto.
Qed.

(** The test [not v or not v.strip()] is the test for a title that is
    empty or made of whitespace only. *)
Lemma blank_test_spec (v : string) :
  negb (truthy v) || negb (truthy (strip v)) = whitespace_only v.
Proof.
  destruct (whitespace_only v) eqn:W.
  - apply strip_empty_iff in W. rewrite W. simpl. apply orb_true_r.
  - destruct (truthy v) eqn:T.
    + simpl. destruct (truthy (strip v)) eqn:S; [reflexivity|].
      apply truthy_false_iff, strip_empty_iff in S. congruence.
    + apply truthy_false_iff in T. subst v. discriminate.
Qed.

Lemma lstrip_head (s : string) (c : ascii) (r : string) :
  lstrip s = String c r -> isspace c = false.
Proof.
  induction s as [|d s IH]; simpl; [discriminate|].
  destruct (isspace d) eqn:D; [exact IH|].
  intros H. injection H as -> _. exact D.
Qed.

(** What [strip] returns is empty or starts with a character that is
    not whitespace, so it is whitespace-only just when it is empty. *)
Lemma whitespace_only_strip (s : string) :
  whitespace_only (strip s) = whitespace_only s.
Proof.
  destruct (whitespace_only s) eqn:W.
  - apply strip_empty_iff in W. rewrite W. reflexivity.
  - unfold strip. destruct (lstrip (rstrip s)) as [|c r] eqn:E.
    + apply lstrip_empty_iff in E. rewrite whitespace_only_rstrip in E. congruence.
    + apply lstrip_head in E. rewrite whitespace_only_cons, E. reflexivity.
Qed.

Lemma title_must_exist_spec (v : string) :
  NewTask.title_must_exist v =
  if whitespace_only v then Err InvalidInput else Ok (strip v).
Proof. unfold NewTask.title_must_exist. rewrite blank_test_spec. reflexivity. Qed.

(** ** Creation: validation *)

Lemma in_valid_statuses_enumerated (p : string) :
  in_valid_statuses (Some p) = enumerated p.
Proof.
  unfold in_valid_statuses, enumerated, VALID_STATUSES. simpl.
  rewrite orb_false_r, orb_assoc. reflexivity.
Qed.

Lemma new_progress_spec (f : field string) :
  NewTask.validate_progress f =
  if supplied_progress_not_enumerated f
  then Err InvalidInput
  else Ok (Some (progress_or_default f)).
Proof.
  destruct f as [| |p]; try reflexivity.
  unfold NewTask.validate_progress, NewTask.progress_must_be_valid. simpl supplied.
  cbv iota beta. rewrite in_valid_statuses_enumerated. simpl.
  destruct (enumerated p); reflexivity.
Qed.

Lemma new_parse_spec (b : Body.t) :
  NewTask.parse b =
  if title_missing_or_blank (Body.title b)
     || supplied_progress_not_enumerated (Body.progress b)
  then Err InvalidInput
  else Ok (NewTask.mk
             (strip (match Body.title b with Val s => s | _ => "" end))
             (NewTask.validate_optional (Body.notes b))
             (Some (progress_or_default (Body.progress b)))
             (NewTask.validate_optional (Body.deadline b))).
Proof.
  unfold NewTask.parse. rewrite new_progress_spec.
  destruct (Body.title b) as [| |s];
    cbn [NewTask.validate_title title_missing_or_blank];
    try (destruct (supplied_progress_not_enumerated _); reflexivity).
  rewrite title_must_exist_spec.
  destruct (whitespace_only s), (supplied_progress_not_enumerated _); reflexivity.
Qed.

Lemma POST_tasks_spec (now : Z) (b : Body.t) (db : Store) :
  POST_tasks now b db =
  if title_missing_or_blank (Body.title b)
     || supplied_progress_not_enumerated (Body.progress b)
  then (Err InvalidInput, db)
  else (Ok (created_out now b db), db ++ [created_row now b db]).
Proof.
  unfold POST_tasks, route. rewrite new_parse_spec.
  destruct (_ || _); reflexivity.
Qed.

(** C7. A create request whose title is missing, empty or whitespace-only,
    or whose supplied progress (an explicit null included) is not one of
    the three enumerated values, is rejected with InvalidInput by the
    validation alone, and the store is left as it was; every other create
    request passes validation (with the title stripped and the progress
    supplied or "pending"), is answered with a record and adds one row. *)
Theorem create_validation (now : Z) (b : Body.t) (db : Store) :
  let rejected :=
    title_missing_or_blank (Body.title b)
    || supplied_progress_not_enumerated (Body.progress b) in
  if rejected
  then NewTask.parse b = Err InvalidInput
       /\ POST_tasks now b db = (Err InvalidInput, db)
  else (exists payload,
          NewTask.parse b = Ok payload
          /\ Body.title b = Val (match Body.title b with Val s => s | _ => "" end)
          /\ NewTask.title payload
             = strip (match Body.title b with Val s => s | _ => "" end)
          /\ whitespace_only (NewTask.title payload) = false
          /\ NewTask.progress payload
             = Some (progress_or_default (Body.progress b))
          /\ enumerated (progress_or_default (Body.progress b)) = true)
       /\ (exists out row,
             POST_tasks now b db = (Ok out, db ++ [row])).
Proof.
  intros rejected. subst rejected.
  rewrite POST_tasks_spec, new_parse_spec.
  destruct (_ || _) eqn:R.
  - split; reflexivity.
  - apply orb_false_elim in R as [Rt Rp]. split.
    + eexists. split; [reflexivity|]. simpl.
      destruct (Body.title b) as [| |s]; try discriminate. simpl in Rt.
      repeat split.
      * rewrite whitespace_only_strip. exact Rt.
      * destruct (Body.progress b) as [| |p]; try discriminate; [reflexivity|].
        simpl in *. now apply negb_false_iff in Rp.
    + eauto.
Qed.

(** ** Row ids *)

Lemma fold_left_max_ge (l : list Z) (a : Z) : a <= fold_left Z.max l a.
Proof.
  revert a. induction l as [|x l IH]; intros a; simpl; [lia|].
  specialize (IH (Z.max a x)). lia.
Qed.

Lemma fold_left_max_bound (l : list Z) (a : Z) :
  Forall (fun i => i <= fold_left Z.max l a) l.
Proof.
  revert a. induction l as [|x l IH]; intros a; simpl; constructor.
  - pose proof (fold_left_max_ge l (Z.max a x)). lia.
  - apply IH.
Qed.

Lemma fold_left_max_in (l : list Z) (a : Z) :
  fold_left Z.max l a = a \/ In (fold_left Z.max l a) l.
Proof.
  revert a. induction l as [|x l IH]; intros a; simpl; [now left|].
  destruct (IH (Z.max a x)) as [H|H]; [|now right; right].
  rewrite H. destruct (Z.max_spec a x) as [[_ E]|[_ E]]; rewrite E; auto.
Qed.

(** [max_rowid] is the largest id of the table: it is one of the ids and
    bounds them all. *)
Lemma max_rowid_spec (db : Store) :
  match max_rowid db with
  | None => db = []
  | Some m => In m (ids db) /\ Forall (fun i => i <= m) (ids db)
  end.
Proof.
  unfold max_rowid. destruct db as [|r db]; simpl; [reflexivity|].
  split.
  - destruct (fold_left_max_in (ids db) (TaskItem.id r)) as [H|H]; auto.
  - constructor; [apply fold_left_max_ge | apply fold_left_max_bound].
Qed.

Lemma max_rowid_unique (db : Store) (m : Z) :
  In m (ids db) -> Forall (fun i => i <= m) (ids db) -> max_rowid db = Some m.
Proof.
  intros Hin Hle. pose proof (max_rowid_spec db) as S.
  destruct (max_rowid db) as [m'|].
  - destruct S as [Hin' Hle']. rewrite Forall_forall in Hle, Hle'.
    apply Hle in Hin'. apply Hle' in Hin. f_equal. lia.
  - subst db. destruct Hin.
Qed.

(** The id of a new row is larger than every id in the table. *)
Lemma next_rowid_above (db : Store) :
  Forall (fun i => i < next_rowid db) (ids db).
Proof.
  unfold next_rowid. pose proof (max_rowid_spec db) as S.
  destruct (max_rowid db) as [m|].
  - destruct S as [_ S]. eapply Forall_impl; [|exact S]. simpl. intros. lia.
  - subst db. constructor.
Qed.

Lemma next_rowid_fresh (db : Store) : ~ In (next_rowid db) (ids db).
Proof.
  intros H. pose proof (next_rowid_above db) as A.
  rewrite Forall_forall in A. apply A in H. lia.
Qed.

Lemma ids_app (db : Store) (r : TaskItem.t) :
  ids (db ++ [r]) = ids db ++ [TaskItem.id r].
Proof. unfold ids. now rewrite map_app. Qed.

Lemma next_rowid_after_insert (db : Store) (r : TaskItem.t) :
  TaskItem.id r = next_rowid db -> next_rowid (db ++ [r]) = next_rowid db + 1.
Proof.
  intros E. unfold next_rowid at 1.
  rewrite (max_rowid_unique (db ++ [r]) (next_rowid db)); [reflexivity| |].
  - rewrite ids_app, E. apply in_or_app. right. now left.
  - rewrite ids_app, E. apply Forall_app. split.
    + eapply Forall_impl; [|apply next_rowid_above]. simpl. intros. lia.
    + constructor; [lia|constructor].
Qed.

(** ** Creation: the record returned *)

(** C8 (as amended). For every creation payload that passes validation,
    the create operation returns a record whose id is the store's next
    rowid (one more than the largest id in the store, 1 when the store is
    empty), hence larger than, and different from, the id of every record
    in the store at that time; whose progress is the supplied value, or
    "pending" when progress was left out; and whose added_on is the clock
    reading of the creation.  The row written carries the same values. *)
Theorem create_returns_fresh_record (now : Z) (b : Body.t) (db : Store) :
  is_ok (NewTask.parse b) = true ->
  exists out row,
    POST_tasks now b db = (Ok out, db ++ [row])
    /\ TaskOut.from_orm row = Ok out
    /\ TaskOut.id out = next_rowid db
    /\ Forall (fun i => i < TaskOut.id out) (ids db)
    /\ ~ In (TaskOut.id out) (ids db)
    /\ TaskOut.progress out = progress_or_default (Body.progress b)
    /\ TaskOut.added_on out = now.
Proof.
  intros V. rewrite new_parse_spec in V. rewrite POST_tasks_spec.
  destruct (_ || _); [discriminate|].
  exists (created_out now b db), (created_row now b db).
  repeat split.
  - apply next_rowid_above.
  - apply next_rowid_fresh.
Qed.

Lemma create_returns_fresh_record_witness :
  exists out row,
    POST_tasks 7 (body_title " write report ") [] = (Ok out, [] ++ [row])
    /\ TaskOut.from_orm row = Ok out
    /\ TaskOut.id out = next_rowid []
    /\ Forall (fun i => i < TaskOut.id out) (ids [])
    /\ ~ In (TaskOut.id out) (ids [])
    /\ TaskOut.progress out = progress_or_default Unset
    /\ TaskOut.added_on out = 7.
Proof.
  apply (create_returns_fresh_record 7 (body_title " write report ") []).
  reflexivity.
Defined.

(** C8 as stated fails: after the record with the largest id has been
    deleted, the next creation is given that id again. *)
Lemma create_reissues_id_counterexample :
  let '(rs, db) :=
    run [Create 10 (body_title "a"); Create 20 (body_title "b"); Delete 2] [] in
  exists out db',
    is_ok (NewTask.parse (body_title "c")) = true
    /\ POST_tasks 30 (body_title "c") db = (Ok out, db')
    /\ In (TaskOut.id out) (issued_ids rs).
Proof.
  vm_compute. do 2 eexists. repeat split. now right; left.
Qed.

(** ** What each route does to the store *)

Lemma query_first_id (task_id : Z) (db : Store) (task : TaskItem.t) :
  query_first task_id db = Some task -> TaskItem.id task = task_id.
Proof.
  unfold query_first. intros H. apply find_some in H as [_ H].
  now apply Z.eqb_eq.
Qed.

Lemma query_first_in (task_id : Z) (db : Store) (task : TaskItem.t) :
  query_first task_id db = Some task -> In task db.
Proof. unfold query_first. intros H. now apply find_some in H. Qed.

Lemma PUT_task_spec (task_id : Z) (b : Body.t) (db : Store) :
  PUT_task task_id b db =
  match EditTask.parse b with
  | Err e => (Err e, db)
  | Ok payload =>
      match query_first task_id db with
      | None => (Err (NotFound task_id), db)
      | Some task =>
          let task' :=
            Mapped.flush
              (fold_left setattr (dict_exclude_unset payload)
                 (Mapped.load task)) in
          if TaskItem.not_null task'
          then (TaskOut.from_orm task', write_row task' db)
          else (Err ServerError, db)
      end
  end.
Proof.
  unfold PUT_task, route. destruct (EditTask.parse b) as [payload|e]; [|reflexivity].
  unfold update_task, bind, fetch_task_or_404.
  destruct (query_first task_id db) as [task|]; [|reflexivity].
  unfold ret, update_commit. cbv zeta.
  destruct (TaskItem.not_null _); reflexivity.
Qed.

Lemma DELETE_task_spec (task_id : Z) (db : Store) :
  DELETE_task task_id db =
  match query_first task_id db with
  | None => (Err (NotFound task_id), db)
  | Some _ => (Ok tt, drop_row task_id db)
  end.
Proof.
  unfold DELETE_task, route, remove_task, bind, fetch_task_or_404.
  destruct (query_first task_id db) as [task|] eqn:Q; [|reflexivity].
  apply query_first_id in Q. unfold ret, delete_commit.
  now rewrite Q.
Qed.

Lemma GET_task_spec (task_id : Z) (db : Store) :
  GET_task task_id db =
  match query_first task_id db with
  | None => (Err (NotFound task_id), db)
  | Some task => (TaskOut.from_orm task, db)
  end.
Proof.
  unfold GET_task, route, get_single_task, fetch_task_or_404.
  destruct (query_first task_id db); reflexivity.
Qed.

Lemma GET_tasks_spec (db : Store) :
  GET_tasks db = (TaskOut.from_orm_list (order_by_added_on_desc db), db).
Proof. reflexivity. Qed.

Lemma ids_write_row (task : TaskItem.t) (db : Store) :
  ids (write_row task db) = ids db.
Proof.
  unfold ids, write_row. rewrite map_map. apply map_ext_in. intros r _.
  destruct (TaskItem.id r =? TaskItem.id task) eqn:E; [|reflexivity].
  apply Z.eqb_eq in E. now rewrite E.
Qed.

Lemma ids_drop_row (task_id : Z) (db : Store) :
  ids (drop_row task_id db) = filter (fun i => negb (i =? task_id)) (ids db).
Proof.
  unfold ids, drop_row. induction db as [|r db IH]; simpl; [reflexivity|].
  destruct (TaskItem.id r =? task_id); simpl; now rewrite IH.
Qed.

Lemma next_rowid_ids (db db' : Store) :
  ids db' = ids db -> next_rowid db' = next_rowid db.
Proof. unfold next_rowid, max_rowid. now intros ->. Qed.

Lemma handle_effect (rq : request) (db : Store) :
  effect rq db (fst (handle rq db)) (snd (handle rq db)).
Proof.
  destruct rq as [now b| |task_id|task_id b|task_id]; unfold handle.
  - rewrite POST_tasks_spec. destruct (_ || _); simpl.
    + now apply effect_none.
    + now apply effect_insert.
  - rewrite GET_tasks_spec. destruct (TaskOut.from_orm_list _); simpl;
      now apply effect_none.
  - rewrite GET_task_spec. destruct (query_first task_id db) as [task|]; simpl;
      [destruct (TaskOut.from_orm task)|]; simpl; now apply effect_none.
  - rewrite PUT_task_spec. destruct (EditTask.parse b) as [payload|e]; simpl;
      [|now apply effect_none].
    destruct (query_first task_id db) as [task|]; simpl; [|now apply effect_none].
    destruct (TaskItem.not_null _) eqn:N; simpl; [|now apply effect_none].
    destruct (TaskOut.from_orm _); simpl; now eapply effect_write; eauto.
  - rewrite DELETE_task_spec. destruct (query_first task_id db); simpl.
    + now apply effect_drop.
    + now apply effect_none.
Qed.

Lemma run_cons (rq : request) (rqs : list request) (db : Store) :
  run (rq :: rqs) db =
  (fst (handle rq db) :: fst (run rqs (snd (handle rq db))),
   snd (run rqs (snd (handle rq db)))).
Proof.
  simpl. destruct (handle rq db) as [r db']. simpl.
  destruct (run rqs db') as [rs db'']. reflexivity.
Qed.

(** ** Uniqueness of ids *)

Section Sorted_lists.
Context {A : Type} (R : A -> A -> Prop).

Lemma StronglySorted_snoc (l : list A) (x : A) :
  StronglySorted R l -> Forall (fun a => R a x) l ->
  StronglySorted R (l ++ [x]).
Proof.
  induction 1 as [|a l S IH F]; intros B; simpl.
  - repeat constructor.
  - inversion B as [|? ? Ba Bl]; subst. constructor; [now apply IH|].
    apply Forall_app. split; [exact F|now constructor].
Qed.

Lemma StronglySorted_filter (p : A -> bool) (l : list A) :
  StronglySorted R l -> StronglySorted R (filter p l).
Proof.
  induction 1 as [|a l S IH F]; simpl; [constructor|].
  destruct (p a); [|exact IH]. constructor; [exact IH|].
  rewrite Forall_forall in *. intros x Hx. apply filter_In in Hx as [Hx _].
  now apply F.
Qed.

Lemma StronglySorted_map (f : A -> A) (l : list A) :
  (forall a b, R a b -> R (f a) (f b)) ->
  StronglySorted R l -> StronglySorted R (map f l).
Proof.
  intros Hf. induction 1 as [|a l S IH F]; simpl; constructor; [exact IH|].
  rewrite Forall_forall in *. intros y Hy.
  apply in_map_iff in Hy as [x [<- Hx]]. now apply Hf, F.
Qed.
End Sorted_lists.

Lemma ascending_insert (db : Store) (row : TaskItem.t) :
  ascending db -> TaskItem.id row = next_rowid db -> ascending (db ++ [row]).
Proof.
  intros S E. apply StronglySorted_snoc; [exact S|].
  pose proof (next_rowid_above db) as B. unfold ids in B.
  rewrite Forall_map in B. rewrite E. exact B.
Qed.

Lemma ascending_write_row (task : TaskItem.t) (db : Store) :
  ascending db -> ascending (write_row task db).
Proof.
  apply StronglySorted_map. intros a b L.
  destruct (TaskItem.id a =? TaskItem.id task) eqn:Ea;
    destruct (TaskItem.id b =? TaskItem.id task) eqn:Eb;
    rewrite ?Z.eqb_eq in *; lia.
Qed.

Lemma handle_ascending (rq : request) (db : Store) :
  ascending db -> ascending (snd (handle rq db)).
Proof.
  intros S. destruct (handle_effect rq db).
  - now apply ascending_insert.
  - exact S.
  - now apply ascending_write_row.
  - now apply StronglySorted_filter.
Qed.

Lemma run_ascending (rqs : list request) (db : Store) :
  ascending db -> ascending (snd (run rqs db)).
Proof.
  revert db. induction rqs as [|rq rqs IH]; intros db S; [exact S|].
  rewrite run_cons. simpl. now apply IH, handle_ascending.
Qed.

Lemma ascending_NoDup (db : Store) : ascending db -> NoDup (ids db).
Proof.
  induction 1 as [|a l S IH F]; simpl; constructor; [|exact IH].
  intros Hin. apply in_map_iff in Hin as [x [E Hx]].
  rewrite Forall_forall in F. apply F in Hx. lia.
Qed.

(** Dropping rows of an id other than the largest keeps the next rowid. *)
Lemma next_rowid_drop_row (task_id : Z) (db : Store) :
  deletes_largest (Delete task_id) db = false ->
  next_rowid (drop_row task_id db) = next_rowid db.
Proof.
  unfold deletes_largest, next_rowid. intros D.
  pose proof (max_rowid_spec db) as S.
  destruct (max_rowid db) as [m|].
  - destruct S as [Hin Hle]. apply Z.eqb_neq in D.
    rewrite (max_rowid_unique (drop_row task_id db) m); [reflexivity| |].
    + rewrite ids_drop_row. apply filter_In. split; [exact Hin|].
      apply negb_true_iff, Z.eqb_neq. congruence.
    + rewrite ids_drop_row. rewrite Forall_forall in *. intros i Hi.
      apply filter_In in Hi as [Hi _]. now apply Hle.
  - subst db. reflexivity.
Qed.

Lemma handle_next_rowid (rq : request) (db : Store) :
  deletes_largest rq db = false ->
  next_rowid db <= next_rowid (snd (handle rq db)).
Proof.
  intros D. destruct (handle_effect rq db) as [out row Eo Er N|r|r i b task I Erq N|i Erq].
  - rewrite (next_rowid_after_insert db row Er). lia.
  - lia.
  - rewrite (next_rowid_ids db (write_row task db) (ids_write_row task db)). lia.
  - subst rq. rewrite (next_rowid_drop_row i db D). lia.
Qed.

Lemma run_issued_fresh (rqs : list request) (db : Store) :
  never_deletes_largest rqs db = true ->
  NoDup (issued_ids (fst (run rqs db)))
  /\ Forall (fun i => next_rowid db <= i) (issued_ids (fst (run rqs db))).
Proof.
  revert db. induction rqs as [|rq rqs IH]; intros db K.
  - simpl. split; constructor.
  - simpl in K. apply andb_true_iff in K as [D K].
    apply negb_true_iff in D. rewrite run_cons. cbn [fst].
    destruct (IH _ K) as [ND B]. pose proof (handle_next_rowid rq db D) as Mono.
    assert (B' : Forall (fun i => next_rowid db <= i)
                   (issued_ids (fst (run rqs (snd (handle rq db)))))).
    { eapply Forall_impl; [|exact B]. simpl. intros. lia. }
    destruct (handle_effect rq db) as [out row Eo Er N|r I|r i b task I Erq N|i Erq].
    + cbn [snd] in *. rewrite (next_rowid_after_insert db row Er) in B.
      cbn [issued_ids]. split.
      * constructor; [|exact ND]. intros Hin. rewrite Forall_forall in B.
        apply B in Hin. lia.
      * constructor; [lia|exact B'].
    + destruct r; try discriminate I; cbn [issued_ids]; auto.
    + destruct r; try discriminate I; cbn [issued_ids]; auto.
    + cbn [issued_ids]. auto.
Qed.

(** C4 (as amended). For every sequence of requests served from the empty
    store: the records in the store have pairwise distinct ids (they sit
    in strictly increasing order of id); the id assigned by a create that
    follows is larger than every id in the store at that time; and no id
    is issued twice by the creations of the sequence provided no request
    deletes the record that holds the largest id at the time it is
    served. *)
Theorem ids_unique (rqs : list request) :
  ascending (snd (run rqs []))
  /\ NoDup (ids (snd (run rqs [])))
  /\ (forall now b out,
        fst (POST_tasks now b (snd (run rqs []))) = Ok out ->
        Forall (fun i => i < TaskOut.id out) (ids (snd (run rqs [])))
        /\ ~ In (TaskOut.id out) (ids (snd (run rqs []))))
  /\ (never_deletes_largest rqs [] = true ->
      NoDup (issued_ids (fst (run rqs [])))).
Proof.
  assert (S : ascending (snd (run rqs []))) by (apply run_ascending; constructor).
  split; [exact S|]. split; [now apply ascending_NoDup|]. split.
  - intros now b out. rewrite POST_tasks_spec.
    destruct (_ || _); [discriminate|]. cbn [fst]. intros [= <-].
    split; [apply next_rowid_above|apply next_rowid_fresh].
  - intros K. now apply run_issued_fresh.
Qed.

Lemma ids_unique_witness :
  let rqs := [Create 10 (body_title "a"); Create 20 (body_title "b");
              Delete 1; Create 30 (body_title "c")] in
  never_deletes_largest rqs [] = true
  /\ NoDup (issued_ids (fst (run rqs [])))
  /\ Forall (fun i => i < 4) (ids (snd (run rqs []))).
Proof.
  split; [reflexivity|]. split.
  - apply (ids_unique [Create 10 (body_title "a"); Create 20 (body_title "b");
                       Delete 1; Create 30 (body_title "c")]).
    reflexivity.
  - apply (proj1 (proj2 (proj2
             (ids_unique [Create 10 (body_title "a"); Create 20 (body_title "b");
                          Delete 1; Create 30 (body_title "c")])))
             40 (body_title "d") (TaskOut.mk 4 "d" None "pending" 40 None)).
    reflexivity.
Defined.

(** C4 as stated fails: a creation, the deletion of its record and a
    second creation issue the id 1 twice. *)
Lemma id_issued_twice_counterexample :
  ~ NoDup (issued_ids (fst (run [Create 10 (body_title "a"); Delete 1;
                                 Create 20 (body_title "b")] []))).
Proof.
  vm_compute. intros H. inversion H as [|? ? Hin _]; subst.
  apply Hin. now left.
Qed.

(** ** Listing *)

Lemma insert_desc_perm (x : TaskItem.t) (l : list TaskItem.t) :
  Permutation (insert_desc x l) (x :: l).
Proof.
  induction l as [|y l IH]; simpl; [reflexivity|].
  destruct (TaskItem.added_on x <? TaskItem.added_on y); [|reflexivity].
  rewrite IH. apply perm_swap.
Qed.

Lemma insert_desc_sorted (x : TaskItem.t) (l : list TaskItem.t) :
  StronglySorted not_older l -> StronglySorted not_older (insert_desc x l).
Proof.
  induction 1 as [|y l S IH F]; simpl.
  - repeat constructor.
  - destruct (TaskItem.added_on x <? TaskItem.added_on y) eqn:E.
    + apply Z.ltb_lt in E. constructor; [exact IH|].
      rewrite Forall_forall in *. intros z Hz.
      apply (Permutation_in _ (insert_desc_perm x l)) in Hz as [<-|Hz].
      * unfold not_older. lia.
      * now apply F.
    + apply Z.ltb_ge in E. constructor; [now constructor|].
      constructor; [exact E|].
      rewrite Forall_forall in *. intros z Hz. apply F in Hz.
      unfold not_older in *. lia.
Qed.

Lemma insert_desc_stable (ts : Z) (x : TaskItem.t) (l : list TaskItem.t) :
  added_at ts (insert_desc x l) = added_at ts (x :: l).
Proof.
  unfold added_at. induction l as [|y l IH]; [reflexivity|].
  cbn [insert_desc].
  destruct (TaskItem.added_on x <? TaskItem.added_on y) eqn:E; [|reflexivity].
  apply Z.ltb_lt in E. cbn [filter] in *. rewrite IH.
  destruct (TaskItem.added_on y =? ts) eqn:Ey; [|reflexivity].
  apply Z.eqb_eq in Ey.
  assert (Ex : (TaskItem.added_on x =? ts) = false) by (apply Z.eqb_neq; lia).
  now rewrite Ex.
Qed.

Lemma order_by_perm (db : Store) : Permutation (order_by_added_on_desc db) db.
Proof.
  induction db as [|x db IH]; simpl; [constructor|].
  rewrite insert_desc_perm. now constructor.
Qed.

Lemma order_by_sorted (db : Store) :
  StronglySorted not_older (order_by_added_on_desc db).
Proof.
  induction db as [|x db IH]; simpl; [constructor|].
  now apply insert_desc_sorted.
Qed.

Lemma order_by_stable (ts : Z) (db : Store) :
  added_at ts (order_by_added_on_desc db) = added_at ts db.
Proof.
  induction db as [|x db IH]; [reflexivity|].
  cbn [order_by_added_on_desc fold_right]. rewrite insert_desc_stable.
  unfold added_at in *. cbn [filter].
  fold (order_by_added_on_desc db). now rewrite IH.
Qed.

(** C5 (as amended). For every store contents, the listing handler
    returns all the rows of the table, ordered by added_on descending,
    and rows with equal added_on stay in table order, which is insertion
    order (the older record first); the route answers with that sequence
    fitted to the response model.  After creating A, then B, then C on the
    empty store at strictly increasing clock readings, the listing is
    [C, B, A]. *)
Theorem list_order :
  (forall db : Store,
      exists l,
        get_all_tasks db = (Ok l, db)
        /\ GET_tasks db = (TaskOut.from_orm_list l, db)
        /\ Permutation l db
        /\ StronglySorted not_older l
        /\ forall ts, added_at ts l = added_at ts db)
  /\ (forall tA tB tC a b c,
         is_ok (NewTask.parse a) = true ->
         is_ok (NewTask.parse b) = true ->
         is_ok (NewTask.parse c) = true ->
         tA < tB -> tB < tC ->
         exists A B C,
           fst (run [Create tA a; Create tB b; Create tC c; ListAll] [])
           = [Created A; Created B; Created C; Listed [C; B; A]]
           /\ TaskOut.added_on A = tA
           /\ TaskOut.added_on B = tB
           /\ TaskOut.added_on C = tC).
Proof.
  split.
  - intros db. exists (order_by_added_on_desc db).
    repeat split.
    + apply order_by_perm.
    + apply order_by_sorted.
    + intros ts. apply order_by_stable.
  - intros tA tB tC a b c Va Vb Vc AB BC.
    rewrite new_parse_spec in Va, Vb, Vc.
    rewrite !run_cons. cbn [handle].
    rewrite (POST_tasks_spec tA a).
    destruct (_ || _); [discriminate|]. cbn [reply fst snd].
    rewrite (POST_tasks_spec tB b).
    destruct (_ || _); [discriminate|]. cbn [reply fst snd].
    rewrite (POST_tasks_spec tC c).
    destruct (_ || _); [discriminate|]. cbn [reply fst snd].
    rewrite GET_tasks_spec.
    cbn [app order_by_added_on_desc fold_right insert_desc created_row
         TaskItem.added_on].
    assert (E1 : (tB <? tC) = true) by (apply Z.ltb_lt; lia).
    assert (E2 : (tA <? tC) = true) by (apply Z.ltb_lt; lia).
    assert (E3 : (tA <? tB) = true) by (apply Z.ltb_lt; lia).
    change (TaskItem.added_on (created_row ?t _ _)) with t.
    rewrite E1. cbn [insert_desc].
    change (TaskItem.added_on (created_row ?t _ _)) with t.
    rewrite E2, E3. cbn [reply fst TaskOut.from_orm_list].
    do 3 eexists. split; [reflexivity|]. repeat split.
Qed.

Lemma list_order_witness :
  exists A B C,
    fst (run [Create 1 (body_title "a"); Create 2 (body_title "b");
              Create 3 (body_title "c"); ListAll] [])
    = [Created A; Created B; Created C; Listed [C; B; A]]
    /\ TaskOut.added_on A = 1
    /\ TaskOut.added_on B = 2
    /\ TaskOut.added_on C = 3.
Proof.
  apply (proj2 list_order 1 2 3 (body_title "a") (body_title "b")
           (body_title "c")); reflexivity.
Defined.

(** C5 as stated fails: three records created at the same clock reading
    are listed in insertion order [A, B, C], not [C, B, A]. *)
Lemma list_equal_timestamps_counterexample :
  exists A B C,
    fst (run [Create 5 (body_title "a"); Create 5 (body_title "b");
              Create 5 (body_title "c"); ListAll] [])
    = [Created A; Created B; Created C; Listed [A; B; C]]
    /\ [A; B; C] <> [C; B; A].
Proof.
  do 3 eexists. split; [vm_compute; reflexivity|]. discriminate.
Qed.

(** ** Deletion *)

Lemma query_first_drop_row (task_id : Z) (db : Store) :
  query_first task_id (drop_row task_id db) = None.
Proof.
  unfold query_first, drop_row. induction db as [|r db IH]; [reflexivity|].
  cbn [filter]. destruct (TaskItem.id r =? task_id) eqn:E; cbn [negb]; [exact IH|].
  cbn [find]. now rewrite E.
Qed.

Lemma in_drop_row (task_id : Z) (db : Store) (r : TaskItem.t) :
  In r (drop_row task_id db) -> In r db /\ TaskItem.id r <> task_id.
Proof.
  unfold drop_row. intros H. apply filter_In in H as [H N].
  split; [exact H|]. now apply negb_true_iff, Z.eqb_neq in N.
Qed.

Lemma from_orm_id (task : TaskItem.t) (out : TaskOut.t) :
  TaskOut.from_orm task = Ok out -> TaskOut.id out = TaskItem.id task.
Proof.
  unfold TaskOut.from_orm.
  destruct (TaskItem.title task), (TaskItem.progress task); try discriminate.
  now intros [= <-].
Qed.

Lemma from_orm_list_ids (tasks : list TaskItem.t) (outs : list TaskOut.t) :
  TaskOut.from_orm_list tasks = Ok outs -> map TaskOut.id outs = ids tasks.
Proof.
  revert outs. induction tasks as [|task tasks IH]; intros outs; simpl.
  - now intros [= <-].
  - destruct (TaskOut.from_orm task) as [o|] eqn:O; [|discriminate]. simpl.
    destruct (TaskOut.from_orm_list tasks) as [os|]; [|discriminate]. simpl.
    intros [= <-]. simpl. f_equal; [now apply from_orm_id|now apply IH].
Qed.

(** C9. For every id of a stored task, the delete succeeds with no
    content; afterwards a get on that id yields NotFound, and neither the
    deleted task nor any record of that id is among the rows the listing
    handler returns or in a listing the route answers with. *)
Theorem delete_then_absent (db : Store) (task_id : Z) (task : TaskItem.t) :
  query_first task_id db = Some task ->
  exists db',
    DELETE_task task_id db = (Ok tt, db')
    /\ handle (Delete task_id) db = (NoContent, db')
    /\ GET_task task_id db' = (Err (NotFound task_id), db')
    /\ ~ In task (order_by_added_on_desc db')
    /\ Forall (fun r => TaskItem.id r <> task_id) (order_by_added_on_desc db')
    /\ forall outs,
         fst (GET_tasks db') = Ok outs ->
         Forall (fun o => TaskOut.id o <> task_id) outs.
Proof.
  intros Q. exists (drop_row task_id db).
  assert (D : DELETE_task task_id db = (Ok tt, drop_row task_id db)).
  { rewrite DELETE_task_spec, Q. reflexivity. }
  assert (F : Forall (fun r => TaskItem.id r <> task_id)
                (order_by_added_on_desc (drop_row task_id db))).
  { rewrite Forall_forall. intros r Hr.
    apply (Permutation_in _ (order_by_perm _)) in Hr.
    now apply in_drop_row in Hr. }
  repeat split.
  - exact D.
  - unfold handle. now rewrite D.
  - rewrite GET_task_spec, query_first_drop_row. reflexivity.
  - intros Hin. rewrite Forall_forall in F. apply F in Hin.
    apply query_first_id in Q. contradiction.
  - exact F.
  - intros outs L. rewrite GET_tasks_spec in L. cbn [fst] in L.
    apply from_orm_list_ids in L.
    assert (G : Forall (fun i => i <> task_id) (map TaskOut.id outs)).
    { rewrite L. unfold ids. now rewrite Forall_map. }
    now rewrite Forall_map in G.
Qed.

Lemma delete_then_absent_witness :
  let db := snd (run [Create 10 (body_title "a"); Create 20 (body_title "b")] []) in
  exists db',
    DELETE_task 1 db = (Ok tt, db')
    /\ handle (Delete 1) db = (NoContent, db')
    /\ GET_task 1 db' = (Err (NotFound 1), db')
    /\ ~ In (created_row 10 (body_title "a") []) (order_by_added_on_desc db')
    /\ Forall (fun r => TaskItem.id r <> 1) (order_by_added_on_desc db')
    /\ forall outs,
         fst (GET_tasks db') = Ok outs ->
         Forall (fun o => TaskOut.id o <> 1) outs.
Proof.
  apply (delete_then_absent
           (snd (run [Create 10 (body_title "a"); Create 20 (body_title "b")] []))
           1 (created_row 10 (body_title "a") [])).
  reflexivity.
Defined.

(** ** Update *)

Lemma edit_parse_spec (b : Body.t) :
  EditTask.parse b =
  if progress_string_not_enumerated (Body.progress b)
  then Err InvalidInput
  else Ok (EditTask.mk (Body.title b) (Body.notes b) (Body.progress b)
             (Body.deadline b)).
Proof.
  unfold EditTask.parse, EditTask.validate_progress, EditTask.check_progress.
  destruct (Body.progress b) as [| |p]; try reflexivity.
  cbn [supplied progress_string_not_enumerated].
  rewrite in_valid_statuses_enumerated. destruct (enumerated p); reflexivity.
Qed.

(** The loop over the items of [dict(exclude_unset=True)] patches the
    four fields and nothing else. *)
Lemma fold_setattr_patched (b : Body.t) (task : TaskItem.t) :
  Mapped.flush
    (fold_left setattr
       (dict_exclude_unset
          (EditTask.mk (Body.title b) (Body.notes b) (Body.progress b)
             (Body.deadline b)))
       (Mapped.load task))
  = patched b task.
Proof.
  destruct task as [i ti no pr ad de], b as [bt bn bp bd].
  destruct bt, bn, bp, bd, de; reflexivity.
Qed.

Lemma PUT_task_found (task_id : Z) (b : Body.t) (db : Store) (task : TaskItem.t) :
  query_first task_id db = Some task ->
  PUT_task task_id b db =
  if progress_string_not_enumerated (Body.progress b)
  then (Err InvalidInput, db)
  else if TaskItem.not_null (patched b task)
       then (TaskOut.from_orm (patched b task), write_row (patched b task) db)
       else (Err ServerError, db).
Proof.
  intros Q. rewrite PUT_task_spec, edit_parse_spec.
  destruct (progress_string_not_enumerated _); [reflexivity|].
  rewrite Q. cbv zeta. rewrite fold_setattr_patched. reflexivity.
Qed.

Lemma query_first_write_row (task_id : Z) (task : TaskItem.t) (db : Store) :
  TaskItem.id task = task_id ->
  query_first task_id db <> None ->
  query_first task_id (write_row task db) = Some task.
Proof.
  intros E. unfold query_first, write_row. subst task_id.
  induction db as [|r db IH]; cbn [map find]; [congruence|].
  destruct (TaskItem.id r =? TaskItem.id task) eqn:Er.
  - now rewrite Z.eqb_refl.
  - rewrite Er. exact IH.
Qed.

Lemma query_first_write_row_other (j : Z) (task : TaskItem.t) (db : Store) :
  j <> TaskItem.id task ->
  query_first j (write_row task db) = query_first j db.
Proof.
  intros N. unfold query_first, write_row.
  induction db as [|r db IH]; cbn [map find]; [reflexivity|].
  destruct (TaskItem.id r =? TaskItem.id task) eqn:Er.
  - apply Z.eqb_eq in Er.
    assert (E1 : (TaskItem.id task =? j) = false) by (apply Z.eqb_neq; lia).
    assert (E2 : (TaskItem.id r =? j) = false) by (apply Z.eqb_neq; lia).
    now rewrite E1, E2.
  - destruct (TaskItem.id r =? j); [reflexivity|exact IH].
Qed.

(** C6. For every stored task and every update request, the record
    stored under the id afterwards is the old record with exactly the
    fields present in the body replaced by the supplied values when the
    update is committed, and the old record itself otherwise; a supplied
    deadline is stored as the [DateTime] column keeps it, with its
    calendar and clock fields and without its UTC offset.  In both cases
    id, added_on and every field left out of the body are unchanged, the
    records of the other ids are untouched, and a successful answer is
    that stored record.  In particular a body with only notes set to "x"
    stores notes "x" and leaves title, progress and deadline as they
    were. *)
Theorem update_frame (db : Store) (task_id : Z) (task : TaskItem.t) (b : Body.t) :
  query_first task_id db = Some task ->
  let db' := snd (PUT_task task_id b db) in
  let task' := if committed b task then patched b task else task in
  query_first task_id db' = Some task'
  /\ TaskItem.id task' = TaskItem.id task
  /\ TaskItem.added_on task' = TaskItem.added_on task
  /\ (Body.title b = Unset -> TaskItem.title task' = TaskItem.title task)
  /\ (Body.notes b = Unset -> TaskItem.notes task' = TaskItem.notes task)
  /\ (Body.progress b = Unset -> TaskItem.progress task' = TaskItem.progress task)
  /\ (Body.deadline b = Unset -> TaskItem.deadline task' = TaskItem.deadline task)
  /\ (forall d, committed b task = true -> Body.deadline b = Val d ->
       TaskItem.deadline task' = Some (datetime.wall d))
  /\ (forall j, j <> task_id -> query_first j db' = query_first j db)
  /\ (forall out,
         fst (PUT_task task_id b db) = Ok out ->
         committed b task = true /\ TaskOut.from_orm task' = Ok out)
  /\ (b = Body.mk Unset (Val "x") Unset Unset ->
      TaskItem.title task <> None ->
      task' = TaskItem.mk (TaskItem.id task) (TaskItem.title task) (Some "x")
                (TaskItem.progress task) (TaskItem.added_on task)
                (TaskItem.deadline task)).
Proof.
  intros Q db' task'. subst db' task'.
  pose proof (query_first_id _ _ _ Q) as I.
  rewrite (PUT_task_found task_id b db task Q). unfold committed.
  destruct (progress_string_not_enumerated (Body.progress b)) eqn:P; cbn [negb andb].
  - repeat split; auto; try discriminate.
    intros ->. discriminate P.
  - destruct (TaskItem.not_null (patched b task)) eqn:N; cbn [fst snd].
    + split; [apply query_first_write_row; [exact I|congruence]|].
      do 2 (split; [reflexivity|]).
      do 4 (split; [intros E; cbn; now rewrite E|]).
      split; [intros d _ E; cbn; now rewrite E|].
      split; [|split].
      * intros j Hj. apply query_first_write_row_other.
        cbn [patched TaskItem.id]. congruence.
      * intros out O. now split.
      * intros -> _. reflexivity.
    + repeat split; auto; try discriminate.
      intros -> T. unfold TaskItem.not_null in N. cbn in N.
      destruct (TaskItem.title task); [discriminate|congruence].
Qed.

Lemma update_frame_witness :
  let db := snd (run [Create 10 (body_title "a")] []) in
  let b := Body.mk Unset (Val "x") Unset
             (Val (datetime.mk 99 (Some 7200000000))) in
  query_first 1 (snd (PUT_task 1 b db))
  = Some (TaskItem.mk 1 (Some "a") (Some "x") (Some "pending") 10 (Some 99)).
Proof.
  apply (update_frame
           (snd (run [Create 10 (body_title "a")] []))
           1 (TaskItem.mk 1 (Some "a") None (Some "pending") 10 None)
           (Body.mk Unset (Val "x") Unset
              (Val (datetime.mk 99 (Some 7200000000))))).
  reflexivity.
Defined.

(** ** Update of an id that is not stored *)

(** C3 (as amended). For every update request naming an id, in the range
    of a 64-bit integer, that is absent from the store, the body is
    validated first: a body whose progress is a string outside the
    enumeration is rejected with InvalidInput, every other body yields
    NotFound naming the id; the store is unchanged in both cases. *)
Theorem update_absent_id (db : Store) (task_id : Z) (b : Body.t) :
  fits_int64 task_id = true ->
  query_first task_id db = None ->
  PUT_task task_id b db =
  (Err (if progress_string_not_enumerated (Body.progress b)
        then InvalidInput
        else NotFound task_id),
   db).
Proof.
  intros _ Q. rewrite PUT_task_spec, edit_parse_spec.
  destruct (progress_string_not_enumerated _); [reflexivity|].
  now rewrite Q.
Qed.

Lemma update_absent_id_witness :
  PUT_task 99999 (Body.mk Unset (Val "x") Unset Unset) [] =
  (Err (NotFound 99999), []).
Proof.
  apply (update_absent_id [] 99999 (Body.mk Unset (Val "x") Unset Unset));
    reflexivity.
Defined.

(** C3 as stated fails: on the empty store, an update of id 99999 with
    progress "archived" is answered with InvalidInput, not NotFound. *)
Lemma update_absent_id_invalid_body_counterexample :
  query_first 99999 [] = None
  /\ PUT_task 99999 (Body.mk Unset Unset (Val "archived") Unset) []
     = (Err InvalidInput, [])
  /\ fst (PUT_task 99999 (Body.mk Unset Unset (Val "archived") Unset) [])
     <> Err (NotFound 99999).
Proof. repeat split. discriminate. Qed.

(** ** Update: what the validator lets through *)

(** A progress string outside the enumeration is rejected on update,
    whatever the id, and the store is not touched. *)
Lemma update_bad_progress_string_rejected
    (db : Store) (task_id : Z) (b : Body.t) (p : string) :
  Body.progress b = Val p -> enumerated p = false ->
  PUT_task task_id b db = (Err InvalidInput, db).
Proof.
  intros E N. rewrite PUT_task_spec, edit_parse_spec, E.
  cbn [progress_string_not_enumerated]. now rewrite N.
Qed.

(** C2 (the code at the failing input). An update whose body carries
    progress with the explicit null value passes [check_progress]: the
    stored record loses its progress, and the request ends in a server
    error because the record no longer fits the response model; so do
    the get of that record and the listing that follow. *)
Theorem update_null_progress_is_stored :
  run [Create 10 (body_title "a");
       Update 1 (Body.mk Unset Unset Null Unset);
       GetOne 1;
       ListAll] []
  = ([Created (TaskOut.mk 1 "a" None "pending" 10 None);
      Failed ServerError;
      Failed ServerError;
      Failed ServerError],
     [TaskItem.mk 1 (Some "a") None None 10 None]).
Proof. reflexivity. Qed.

(** ** Titles *)

(** Creation stores a stripped title that is not blank. *)
Lemma created_row_title_ok (now : Z) (b : Body.t) (db : Store) :
  title_missing_or_blank (Body.title b) = false ->
  title_ok (created_row now b db) = true.
Proof.
  unfold title_ok, created_row. cbn [TaskItem.title].
  destruct (Body.title b) as [| |s]; try discriminate.
  cbn [title_missing_or_blank]. intros W.
  now rewrite whitespace_only_strip, W.
Qed.

(** As long as no request is an update, no stored title is blank. *)
Lemma run_titles_without_update (rqs : list request) (db : Store) :
  existsb is_update rqs = false ->
  Forall (fun r => title_ok r = true) db ->
  Forall (fun r => title_ok r = true) (snd (run rqs db)).
Proof.
  revert db. induction rqs as [|rq rqs IH]; intros db U F; [exact F|].
  cbn [existsb] in U. apply orb_false_elim in U as [Urq U].
  rewrite run_cons. cbn [snd]. apply IH; [exact U|].
  destruct rq as [now b| |task_id|task_id b|task_id]; try discriminate Urq;
    unfold handle.
  - rewrite POST_tasks_spec.
    destruct (title_missing_or_blank (Body.title b)) eqn:T; cbn [orb reply snd];
      [exact F|].
    destruct (supplied_progress_not_enumerated _); cbn [reply snd]; [exact F|].
    apply Forall_app. split; [exact F|]. constructor; [|constructor].
    now apply created_row_title_ok.
  - rewrite GET_tasks_spec. destruct (TaskOut.from_orm_list _); exact F.
  - rewrite GET_task_spec. destruct (query_first task_id db) as [t|];
      [destruct (TaskOut.from_orm t)|]; exact F.
  - rewrite DELETE_task_spec. destruct (query_first task_id db); cbn [reply snd];
      [|exact F].
    unfold drop_row. rewrite Forall_forall in *. intros r Hr.
    apply filter_In in Hr as [Hr _]. now apply F.
Qed.

(** C1 (the code at the failing input). [EditTask] has no validator for
    title: an update with a whitespace-only title is accepted and the
    blank title is stored, unstripped. *)
Theorem update_stores_blank_title :
  run [Create 10 (body_title "a"); Update 1 (body_title "   ")] []
  = ([Created (TaskOut.mk 1 "a" None "pending" 10 None);
      Updated (TaskOut.mk 1 "   " None "pending" 10 None)],
     [TaskItem.mk 1 (Some "   ") None (Some "pending") 10 None])
  /\ whitespace_only "   " = true.
Proof. split; reflexivity. Qed.

(** ** Update with an empty body *)

Lemma same_id_same_row (db : Store) (a b : TaskItem.t) :
  NoDup (ids db) -> In a db -> In b db -> TaskItem.id a = TaskItem.id b -> a = b.
Proof.
  induction db as [|r db IH]; intros ND Ha Hb E; [destruct Ha|].
  cbn in ND. inversion ND as [|? ? Hr ND']; subst.
  assert (M : forall x, In x db -> TaskItem.id x <> TaskItem.id r).
  { intros x Hx Ex. apply Hr. rewrite <- Ex. now apply in_map. }
  destruct Ha as [->|Ha], Hb as [->|Hb]; auto.
  - apply M in Hb. congruence.
  - apply M in Ha. congruence.
Qed.

Lemma write_row_same (db : Store) (task : TaskItem.t) :
  NoDup (ids db) -> In task db -> write_row task db = db.
Proof.
  intros ND Hin. unfold write_row. rewrite <- (map_id db) at 2.
  apply map_ext_in. intros r Hr.
  destruct (TaskItem.id r =? TaskItem.id task) eqn:E; [|reflexivity].
  apply Z.eqb_eq in E. symmetry. now apply (same_id_same_row db).
Qed.

(** On a record that fits the response model, the update with no field
    set is the identity: it answers with the stored record and leaves the
    store as it was. *)
Lemma empty_update_identity
    (db : Store) (task_id : Z) (task : TaskItem.t) (out : TaskOut.t) :
  NoDup (ids db) ->
  query_first task_id db = Some task ->
  TaskOut.from_orm task = Ok out ->
  PUT_task task_id empty_body db = (Ok out, db).
Proof.
  intros ND Q O. rewrite (PUT_task_found task_id empty_body db task Q).
  cbn [empty_body Body.progress progress_string_not_enumerated].
  assert (P : patched empty_body task = task) by (now destruct task).
  rewrite P. unfold TaskItem.not_null.
  unfold TaskOut.from_orm in O.
  destruct (TaskItem.title task) eqn:T; [|discriminate].
  rewrite write_row_same; [|exact ND|now apply query_first_in in Q].
  unfold TaskOut.from_orm. rewrite T. destruct (TaskItem.progress task);
    [now rewrite <- O|discriminate].
Qed.

(** C10 (the code at the failing input). Once an update with an explicit
    null has cleared the progress of a record, the update with no field
    set leaves the record unchanged but does not succeed: the record does
    not fit the response model and the request ends in a server error. *)
Theorem empty_update_on_null_progress_fails :
  run [Create 10 (body_title "a");
       Update 1 (Body.mk Unset Unset Null Unset);
       Update 1 empty_body] []
  = ([Created (TaskOut.mk 1 "a" None "pending" 10 None);
      Failed ServerError;
      Failed ServerError],
     [TaskItem.mk 1 (Some "a") None None 10 None]).
Proof. reflexivity. Qed.

(** * Further properties *)

(** ** What [strip] removes and what it keeps *)

Lemma append_assoc3 (a b c : string) :
  ((a ++ b) ++ c)%string = (a ++ b ++ c)%string.
Proof. induction a as [|x a IH]; simpl; [reflexivity|now rewrite IH]. Qed.

Lemma lstrip_split (s : string) :
  exists l, s = (l ++ lstrip s)%string /\ whitespace_only l = true.
Proof.
  induction s as [|c s [l [E W]]]; [now exists ""|].
  cbn [lstrip]. destruct (isspace c) eqn:C.
  - exists (String c l). split; [simpl; now rewrite <- E|].
    now rewrite whitespace_only_cons, C, W.
  - now exists "".
Qed.

Lemma rstrip_split (s : string) :
  exists r, s = (rstrip s ++ r)%string /\ whitespace_only r = true.
Proof.
  induction s as [|c s [r [E W]]]; [now exists ""|].
  cbn [rstrip]. destruct (rstrip s) as [|d t] eqn:R.
  - assert (Ws : whitespace_only s = true) by (now apply rstrip_empty_iff).
    destruct (isspace c) eqn:C.
    + exists (String c s). split; [reflexivity|].
      now rewrite whitespace_only_cons, C, Ws.
    + exists s. split; [reflexivity|exact Ws].
  - exists r. split; [|exact W]. simpl. simpl in E. now rewrite <- E.
Qed.

Lemma rstrip_last (s : string) (c : ascii) :
  last_char (rstrip s) = Some c -> isspace c = false.
Proof.
  induction s as [|d s IH]; [discriminate|].
  cbn [rstrip]. destruct (rstrip s) as [|e t] eqn:R.
  - destruct (isspace d) eqn:D; [discriminate|].
    simpl. now intros [= <-].
  - exact IH.
Qed.

Lemma lstrip_last (s : string) :
  lstrip s <> "" -> last_char (lstrip s) = last_char s.
Proof.
  induction s as [|d s IH]; [reflexivity|].
  cbn [lstrip]. destruct (isspace d); [|reflexivity].
  intros N. rewrite (IH N). destruct s; [now elim N|reflexivity].
Qed.

Lemma rstrip_fixed (s : string) :
  (forall c, last_char s = Some c -> isspace c = false) -> rstrip s = s.
Proof.
  induction s as [|d s IH]; [reflexivity|].
  intros L. cbn [rstrip]. destruct s as [|e t].
  - simpl. now rewrite (L d eq_refl).
  - rewrite IH; [reflexivity|]. intros c Hc. now apply L.
Qed.

Lemma lstrip_fixed (s : string) :
  (forall c, first_char s = Some c -> isspace c = false) -> lstrip s = s.
Proof.
  destruct s as [|d s]; [reflexivity|].
  intros F. simpl. now rewrite (F d eq_refl).
Qed.

Lemma strip_ends (s : string) :
  (forall c, first_char (strip s) = Some c -> isspace c = false)
  /\ (forall c, last_char (strip s) = Some c -> isspace c = false).
Proof.
  unfold strip. split; intros c H.
  - destruct (lstrip (rstrip s)) as [|d t] eqn:E; [discriminate|].
    simpl in H. injection H as <-. now apply lstrip_head in E.
  - destruct (lstrip (rstrip s)) as [|d t] eqn:E; [discriminate|].
    rewrite <- E in H. rewrite lstrip_last in H by (rewrite E; discriminate).
    now apply rstrip_last in H.
Qed.

Lemma strip_fixed (s : string) :
  (forall c, first_char s = Some c -> isspace c = false) ->
  (forall c, last_char s = Some c -> isspace c = false) ->
  strip s = s.
Proof.
  intros F L. unfold strip. rewrite (rstrip_fixed s L). now apply lstrip_fixed.
Qed.

(** X1. A title that [title_must_exist] accepts comes back as the input
    with a whitespace-only prefix and a whitespace-only suffix removed
    and everything in between kept; it is not empty, neither its first
    nor its last character is whitespace, and validating it again
    returns it unchanged. *)
Theorem accepted_title_is_trimmed (v t : string) :
  NewTask.title_must_exist v = Ok t ->
  (exists l r,
      v = (l ++ t ++ r)%string
      /\ whitespace_only l = true /\ whitespace_only r = true)
  /\ t <> ""
  /\ (forall c, first_char t = Some c -> isspace c = false)
  /\ (forall c, last_char t = Some c -> isspace c = false)
  /\ NewTask.title_must_exist t = Ok t.
Proof.
  rewrite title_must_exist_spec.
  destruct (whitespace_only v) eqn:W; [discriminate|]. intros [= <-].
  destruct (strip_ends v) as [F L].
  assert (N : strip v <> "").
  { intros E. apply strip_empty_iff in E. congruence. }
  split; [|repeat split; try assumption].
  - destruct (rstrip_split v) as [r [Er Wr]].
    destruct (lstrip_split (rstrip v)) as [l [El Wl]].
    exists l, r. repeat split; try assumption.
    unfold strip. rewrite <- append_assoc3, <- El. exact Er.
  - rewrite title_must_exist_spec, whitespace_only_strip, W.
    now rewrite (strip_fixed (strip v) F L).
Qed.

Lemma accepted_title_is_trimmed_witness :
  (exists l r,
      "  buy milk " = (l ++ "buy milk" ++ r)%string
      /\ whitespace_only l = true /\ whitespace_only r = true)
  /\ "buy milk" <> ""
  /\ (forall c, first_char "buy milk" = Some c -> isspace c = false)
  /\ (forall c, last_char "buy milk" = Some c -> isspace c = false)
  /\ NewTask.title_must_exist "buy milk" = Ok "buy milk".
Proof.
  apply (accepted_title_is_trimmed "  buy milk " "buy milk"). reflexivity.
Defined.

(** ** Looking up what was stored *)

Lemma query_first_none_iff (task_id : Z) (db : Store) :
  query_first task_id db = None <-> ~ In task_id (ids db).
Proof.
  unfold query_first, ids. induction db as [|r db IH]; simpl; [tauto|].
  destruct (TaskItem.id r =? task_id) eqn:E.
  - apply Z.eqb_eq in E. split; [discriminate|]. intros N. elim N. now left.
  - apply Z.eqb_neq in E. rewrite IH. tauto.
Qed.

Lemma query_first_app_new (task_id : Z) (db : Store) (row : TaskItem.t) :
  ~ In task_id (ids db) -> TaskItem.id row = task_id ->
  query_first task_id (db ++ [row]) = Some row.
Proof.
  intros N E. unfold query_first, ids in *.
  induction db as [|r db IH]; simpl.
  - subst task_id. now rewrite Z.eqb_refl.
  - simpl in N. destruct (TaskItem.id r =? task_id) eqn:Er.
    + apply Z.eqb_eq in Er. elim N. now left.
    + apply IH. tauto.
Qed.

Lemma query_first_app_other (j : Z) (db : Store) (row : TaskItem.t) :
  j <> TaskItem.id row ->
  query_first j (db ++ [row]) = query_first j db.
Proof.
  intros N. unfold query_first. induction db as [|r db IH]; simpl.
  - assert (E : (TaskItem.id row =? j) = false) by (apply Z.eqb_neq; congruence).
    now rewrite E.
  - destruct (TaskItem.id r =? j); [reflexivity|exact IH].
Qed.

(** X2. For every store and every creation that passes validation, a get
    on the id just returned answers with exactly the record the creation
    returned and changes nothing; the record carries the stripped title,
    the notes of the body, and the deadline of the body as the [DateTime]
    column keeps it, with its calendar and clock fields and without its
    UTC offset (nothing for a key left out or null); and a get on any
    other id answers as it did before the creation. *)
Theorem create_then_get (now : Z) (b : Body.t) (db : Store) :
  is_ok (NewTask.parse b) = true ->
  exists out db',
    POST_tasks now b db = (Ok out, db')
    /\ GET_task (TaskOut.id out) db' = (Ok out, db')
    /\ Body.title b = Val (match Body.title b with Val s => s | _ => "" end)
    /\ TaskOut.title out = strip (match Body.title b with Val s => s | _ => "" end)
    /\ TaskOut.notes out = NewTask.validate_optional (Body.notes b)
    /\ TaskOut.deadline out
       = option_map datetime.wall (NewTask.validate_optional (Body.deadline b))
    /\ forall j, j <> TaskOut.id out ->
         fst (GET_task j db') = fst (GET_task j db).
Proof.
  intros V. rewrite new_parse_spec in V. rewrite POST_tasks_spec.
  destruct (title_missing_or_blank (Body.title b)) eqn:T; [discriminate|].
  cbn [orb] in *.
  destruct (supplied_progress_not_enumerated (Body.progress b)); [discriminate|].
  exists (created_out now b db), (db ++ [created_row now b db]).
  split; [reflexivity|]. split; [|split; [|repeat split]].
  - rewrite GET_task_spec, (query_first_app_new (next_rowid db));
      [reflexivity|apply next_rowid_fresh|reflexivity].
  - destruct (Body.title b); try discriminate. reflexivity.
  - intros j Hj. rewrite !GET_task_spec, query_first_app_other by exact Hj.
    now destruct (query_first j db).
Qed.

Lemma create_then_get_witness :
  exists out db',
    POST_tasks 7 (Body.mk (Val " a ") Null Unset
                    (Val (datetime.mk 9 (Some 3600000000)))) []
    = (Ok out, db')
    /\ GET_task (TaskOut.id out) db' = (Ok out, db')
    /\ Val " a " = Val " a "
    /\ TaskOut.title out = strip " a "
    /\ TaskOut.notes out = None
    /\ TaskOut.deadline out = Some 9
    /\ forall j, j <> TaskOut.id out ->
         fst (GET_task j db') = fst (GET_task j []).
Proof.
  apply (create_then_get 7
           (Body.mk (Val " a ") Null Unset
              (Val (datetime.mk 9 (Some 3600000000)))) []).
  reflexivity.
Defined.

(** X3. For an id in the range of a 64-bit integer, get and delete
    signal NotFound, naming the id, exactly when no stored record has
    that id, and then leave the store as it was; when a record has the
    id the delete succeeds and the get never signals NotFound. *)
Theorem get_delete_not_found (task_id : Z) (db : Store) :
  (fits_int64 task_id = true ->
   ~ In task_id (ids db) ->
   GET_task task_id db = (Err (NotFound task_id), db)
   /\ DELETE_task task_id db = (Err (NotFound task_id), db))
  /\ (In task_id (ids db) ->
      (forall j, fst (GET_task task_id db) <> Err (NotFound j))
      /\ snd (GET_task task_id db) = db
      /\ fst (DELETE_task task_id db) = Ok tt).
Proof.
  rewrite GET_task_spec, DELETE_task_spec. split; [intros _ H|intros H].
  - apply query_first_none_iff in H. now rewrite H.
  - destruct (query_first task_id db) as [task|] eqn:Q.
    + repeat split. intros j. cbn [fst]. unfold TaskOut.from_orm.
      destruct (TaskItem.title task), (TaskItem.progress task); discriminate.
    + apply query_first_none_iff in Q. contradiction.
Qed.

Lemma get_delete_not_found_witness :
  GET_task 99999 [] = (Err (NotFound 99999), [])
  /\ DELETE_task 99999 [] = (Err (NotFound 99999), []).
Proof.
  apply (proj1 (get_delete_not_found 99999 [])); [reflexivity|].
  intros H. exact H.
Defined.

(** ** Requests that leave the store alone *)

(** X4. A request answered with InvalidInput or NotFound has not changed
    the store, and a listing or a get never changes it, whatever the
    answer. *)
Theorem rejected_request_keeps_store (rq : request) (db : Store) :
  (forall e, fst (handle rq db) = Failed e -> e <> ServerError ->
             snd (handle rq db) = db)
  /\ (rq = ListAll \/ (exists task_id, rq = GetOne task_id) ->
      snd (handle rq db) = db).
Proof.
  split.
  - intros e F N. destruct rq as [now b| |task_id|task_id b|task_id];
      unfold handle in *.
    + rewrite POST_tasks_spec in *. destruct (_ || _); [reflexivity|discriminate].
    + rewrite GET_tasks_spec. now destruct (TaskOut.from_orm_list _).
    + rewrite GET_task_spec. destruct (query_first task_id db) as [t|];
        [now destruct (TaskOut.from_orm t)|reflexivity].
    + rewrite PUT_task_spec in *.
      destruct (EditTask.parse b) as [payload|]; [|reflexivity].
      destruct (query_first task_id db) as [t|]; [|reflexivity].
      cbv zeta in *. destruct (TaskItem.not_null _); [|reflexivity].
      unfold TaskOut.from_orm in F.
      destruct (TaskItem.title _); [destruct (TaskItem.progress _)|];
        cbn [reply fst] in F; try discriminate F; injection F as <-; now elim N.
    + rewrite DELETE_task_spec in *.
      destruct (query_first task_id db); [discriminate|reflexivity].
  - intros [->|[task_id ->]]; unfold handle.
    + rewrite GET_tasks_spec. now destruct (TaskOut.from_orm_list _).
    + rewrite GET_task_spec. destruct (query_first task_id db) as [t|];
        [now destruct (TaskOut.from_orm t)|reflexivity].
Qed.

Lemma rejected_request_keeps_store_witness :
  snd (handle (Create 5 (body_title "  ")) []) = []
  /\ snd (handle ListAll []) = [].
Proof.
  split.
  - apply (proj1 (rejected_request_keeps_store (Create 5 (body_title "  ")) [])
             InvalidInput); [reflexivity|discriminate].
  - apply (proj2 (rejected_request_keeps_store ListAll [])). now left.
Defined.

(** ** Deleting one record *)

Lemma drop_row_absent (task_id : Z) (db : Store) :
  ~ In task_id (ids db) -> drop_row task_id db = db.
Proof.
  unfold drop_row, ids. induction db as [|r db IH]; simpl; [reflexivity|].
  intros N. destruct (TaskItem.id r =? task_id) eqn:E.
  - apply Z.eqb_eq in E. elim N. now left.
  - simpl. rewrite IH; [reflexivity|tauto].
Qed.

Lemma drop_row_split (task_id : Z) (db : Store) (task : TaskItem.t) :
  NoDup (ids db) -> query_first task_id db = Some task ->
  exists l1 l2, db = l1 ++ task :: l2 /\ drop_row task_id db = l1 ++ l2.
Proof.
  unfold query_first. induction db as [|r db IH]; [discriminate|].
  intros ND Q. cbn in ND. inversion ND as [|? ? Hr ND']; subst.
  cbn [find] in Q. unfold drop_row. cbn [filter].
  destruct (TaskItem.id r =? task_id) eqn:E.
  - injection Q as <-. apply Z.eqb_eq in E. subst task_id.
    exists [], db. split; [reflexivity|]. now apply drop_row_absent.
  - destruct (IH ND' Q) as [l1 [l2 [E1 E2]]].
    exists (r :: l1), l2. cbn [negb]. unfold drop_row in E2.
    rewrite E2. split; [now rewrite E1 at 1|reflexivity].
Qed.

Lemma query_first_drop_row_other (j task_id : Z) (db : Store) :
  j <> task_id ->
  query_first j (drop_row task_id db) = query_first j db.
Proof.
  intros N. unfold query_first, drop_row.
  induction db as [|r db IH]; [reflexivity|]. cbn [filter find].
  destruct (TaskItem.id r =? task_id) eqn:E; cbn [negb].
  - apply Z.eqb_eq in E.
    assert (F : (TaskItem.id r =? j) = false) by (apply Z.eqb_neq; lia).
    now rewrite F.
  - cbn [find]. destruct (TaskItem.id r =? j); [reflexivity|exact IH].
Qed.

(** X5. In every store reached from the empty one, deleting a stored
    record takes exactly that record out of the table and keeps the
    others in their order; a get on any other id answers afterwards as it
    did before. *)
Theorem delete_removes_one (rqs : list request) (task_id : Z) (task : TaskItem.t) :
  let db := snd (run rqs []) in
  query_first task_id db = Some task ->
  exists l1 l2,
    db = l1 ++ task :: l2
    /\ DELETE_task task_id db = (Ok tt, l1 ++ l2)
    /\ forall j, j <> task_id ->
         fst (GET_task j (l1 ++ l2)) = fst (GET_task j db).
Proof.
  intros db Q.
  assert (ND : NoDup (ids db)).
  { apply ascending_NoDup, run_ascending. constructor. }
  destruct (drop_row_split task_id db task ND Q) as [l1 [l2 [E1 E2]]].
  exists l1, l2. split; [exact E1|]. split.
  - rewrite DELETE_task_spec, Q, E2. reflexivity.
  - intros j Hj. rewrite <- E2, !GET_task_spec.
    rewrite (query_first_drop_row_other j task_id db Hj).
    now destruct (query_first j db).
Qed.

Lemma delete_removes_one_witness :
  let rqs := [Create 10 (body_title "a"); Create 20 (body_title "b");
              Create 30 (body_title "c")] in
  let db := snd (run rqs []) in
  exists l1 l2,
    db = l1 ++ created_row 20 (body_title "b") [created_row 10 (body_title "a") []]
               :: l2
    /\ DELETE_task 2 db = (Ok tt, l1 ++ l2)
    /\ forall j, j <> 2 ->
         fst (GET_task j (l1 ++ l2)) = fst (GET_task j db).
Proof.
  apply (delete_removes_one
           [Create 10 (body_title "a"); Create 20 (body_title "b");
            Create 30 (body_title "c")] 2).
  reflexivity.
Defined.

(** ** Updating twice *)

Lemma patched_idem (b : Body.t) (task : TaskItem.t) :
  patched b (patched b task) = patched b task.
Proof.
  destruct b as [bt bn bp bd], task as [i ti no pr ad de].
  destruct bt, bn, bp, bd; reflexivity.
Qed.

Lemma write_row_idem (task : TaskItem.t) (db : Store) :
  write_row task (write_row task db) = write_row task db.
Proof.
  unfold write_row. rewrite map_map. apply map_ext. intros r.
  destruct (TaskItem.id r =? TaskItem.id task) eqn:E.
  - now rewrite Z.eqb_refl.
  - now rewrite E.
Qed.

(** X6. The update is idempotent: sending the same update of the same
    id a second time gives the same answer and leaves the store exactly
    as the first one left it. *)
Theorem update_twice (task_id : Z) (b : Body.t) (db : Store) :
  PUT_task task_id b (snd (PUT_task task_id b db)) = PUT_task task_id b db.
Proof.
  destruct (query_first task_id db) as [task|] eqn:Q.
  - rewrite (PUT_task_found task_id b db task Q).
    destruct (progress_string_not_enumerated (Body.progress b)) eqn:P.
    + cbn [snd]. now rewrite (PUT_task_found task_id b db task Q), P.
    + destruct (TaskItem.not_null (patched b task)) eqn:N; cbn [snd].
      * assert (Q' : query_first task_id (write_row (patched b task) db)
                     = Some (patched b task)).
        { apply query_first_write_row; [|congruence].
          cbn [patched TaskItem.id]. now apply query_first_id in Q. }
        rewrite (PUT_task_found _ b _ _ Q'), P, patched_idem, N, write_row_idem.
        reflexivity.
      * now rewrite (PUT_task_found task_id b db task Q), P, N.
  - assert (E : snd (PUT_task task_id b db) = db).
    { rewrite PUT_task_spec, Q. now destruct (EditTask.parse b). }
    now rewrite E.
Qed.

(** ** The ids of a run without deletions *)

Lemma issued_ids_skip (r : response) (rs : list response) :
  issued_ids [r] = [] -> issued_ids (r :: rs) = issued_ids rs.
Proof. destruct r; simpl; congruence. Qed.

Lemma run_without_delete (rqs : list request) (db : Store) :
  existsb is_delete rqs = false ->
  issued_ids (fst (run rqs db))
  = count_from (next_rowid db) (List.length (issued_ids (fst (run rqs db))))
  /\ ids (snd (run rqs db)) = ids db ++ issued_ids (fst (run rqs db)).
Proof.
  revert db. induction rqs as [|rq rqs IH]; intros db D.
  - simpl. now rewrite app_nil_r.
  - cbn [existsb] in D. apply orb_false_elim in D as [Drq D].
    rewrite run_cons. cbn [fst snd].
    destruct (IH (snd (handle rq db)) D) as [I S].
    destruct (handle_effect rq db) as [out row Eo Er N|r Hr|r i b task Hr Erq N|i Erq].
    + cbn [snd] in *. rewrite (next_rowid_after_insert db row Er) in I.
      cbn [issued_ids List.length count_from]. split.
      * rewrite Eo. f_equal. exact I.
      * rewrite S, ids_app, Er, Eo, <- app_assoc. reflexivity.
    + rewrite (issued_ids_skip r _ Hr). now split.
    + rewrite (issued_ids_skip r _ Hr).
      rewrite (next_rowid_ids db _ (ids_write_row task db)) in I.
      rewrite ids_write_row in S. now split.
    + subst rq. discriminate Drq.
Qed.

(** X7. In a run from the empty store that contains no delete request,
    the creations are given the ids 1, 2, 3, ... in the order they are
    served, and the ids in the store are exactly those, in that order. *)
Theorem ids_count_up (rqs : list request) :
  existsb is_delete rqs = false ->
  let issued := issued_ids (fst (run rqs [])) in
  issued = count_from 1 (List.length issued)
  /\ ids (snd (run rqs [])) = issued.
Proof.
  intros D issued. subst issued.
  destruct (run_without_delete rqs [] D) as [I S]. split; [exact I|exact S].
Qed.

Lemma ids_count_up_witness :
  let rqs := [Create 10 (body_title "a"); GetOne 5; Create 10 (body_title " ");
              Update 1 (body_title "z"); Create 4 (body_title "b")] in
  let issued := issued_ids (fst (run rqs [])) in
  issued = count_from 1 (List.length issued)
  /\ ids (snd (run rqs [])) = issued.
Proof.
  apply (ids_count_up
           [Create 10 (body_title "a"); GetOne 5; Create 10 (body_title " ");
            Update 1 (body_title "z"); Create 4 (body_title "b")]).
  reflexivity.
Defined.

(** ** The NOT NULL title *)

Lemma write_row_forall (P : TaskItem.t -> Prop) (task : TaskItem.t) (db : Store) :
  P task -> Forall P db -> Forall P (write_row task db).
Proof.
  intros Pt F. unfold write_row. apply Forall_map.
  eapply Forall_impl; [|exact F]. intros r Pr. cbv beta.
  now destruct (TaskItem.id r =? TaskItem.id task).
Qed.

Lemma drop_row_forall (P : TaskItem.t -> Prop) (task_id : Z) (db : Store) :
  Forall P db -> Forall P (drop_row task_id db).
Proof.
  intros F. rewrite Forall_forall in *. intros r Hr.
  apply in_drop_row in Hr as [Hr _]. now apply F.
Qed.

Lemma run_not_null (rqs : list request) (db : Store) :
  Forall (fun r => TaskItem.not_null r = true) db ->
  Forall (fun r => TaskItem.not_null r = true) (snd (run rqs db)).
Proof.
  revert db. induction rqs as [|rq rqs IH]; intros db F; [exact F|].
  rewrite run_cons. cbn [snd]. apply IH.
  destruct (handle_effect rq db) as [out row Eo Er N|r Hr|r i b task Hr Erq N|i Erq].
  - apply Forall_app. split; [exact F|now repeat constructor].
  - exact F.
  - now apply write_row_forall.
  - now apply drop_row_forall.
Qed.

(** X8. Whatever requests are served from the empty store, no stored
    record ever has a null title: an update that sets title to null ends
    in an error and leaves the store as it was. *)
Theorem title_never_null (rqs : list request) :
  Forall (fun r => TaskItem.title r <> None) (snd (run rqs []))
  /\ forall task_id b db,
       Body.title b = Null ->
       snd (PUT_task task_id b db) = db
       /\ is_ok (fst (PUT_task task_id b db)) = false.
Proof.
  split.
  - eapply Forall_impl; [|apply (run_not_null rqs []); constructor].
    intros r N. unfold TaskItem.not_null in N.
    destruct (TaskItem.title r); [discriminate|discriminate N].
  - intros task_id b db T. rewrite PUT_task_spec, edit_parse_spec.
    destruct (progress_string_not_enumerated _); [now split|].
    destruct (query_first task_id db) as [task|]; [|now split].
    cbv zeta. rewrite fold_setattr_patched.
    unfold TaskItem.not_null, patched. cbn [TaskItem.title]. rewrite T.
    now split.
Qed.

Lemma title_never_null_witness :
  snd (PUT_task 1 (Body.mk Null (Val "n") Unset Unset)
         [TaskItem.mk 1 (Some "a") None (Some "pending") 10 None])
  = [TaskItem.mk 1 (Some "a") None (Some "pending") 10 None]
  /\ is_ok (fst (PUT_task 1 (Body.mk Null (Val "n") Unset Unset)
                   [TaskItem.mk 1 (Some "a") None (Some "pending") 10 None]))
     = false.
Proof.
  apply (proj2 (title_never_null [])). reflexivity.
Defined.

(** ** Where server errors come from *)

Lemma well_formed_from_orm (r : TaskItem.t) :
  well_formed r = true -> exists out, TaskOut.from_orm r = Ok out.
Proof.
  unfold well_formed, TaskItem.not_null, TaskOut.from_orm.
  destruct (TaskItem.title r); [|discriminate].
  destruct (TaskItem.progress r); [|discriminate]. eauto.
Qed.

Lemma well_formed_from_orm_list (l : list TaskItem.t) :
  Forall (fun r => well_formed r = true) l ->
  exists outs, TaskOut.from_orm_list l = Ok outs.
Proof.
  induction 1 as [|r l W F [outs IH]]; simpl; [eauto|].
  destruct (well_formed_from_orm r W) as [out O]. rewrite O, IH. simpl. eauto.
Qed.

Lemma created_row_well_formed (now : Z) (b : Body.t) (db : Store) :
  supplied_progress_not_enumerated (Body.progress b) = false ->
  well_formed (created_row now b db) = true.
Proof.
  unfold well_formed, created_row. cbn. destruct (Body.progress b) as [| |p];
    cbn; [reflexivity|discriminate|]. now intros E%negb_false_iff.
Qed.

Lemma patched_well_formed (b : Body.t) (task : TaskItem.t) :
  well_formed task = true ->
  nulls_title_or_progress (Update (TaskItem.id task) b) = false ->
  progress_string_not_enumerated (Body.progress b) = false ->
  well_formed (patched b task) = true.
Proof.
  unfold well_formed, TaskItem.not_null, patched. cbn.
  destruct task as [i ti no pr ad de], b as [bt bn bp bd]. cbn.
  destruct ti; [|discriminate]. destruct pr as [p|]; [|discriminate].
  intros W. destruct bt, bp; cbn; try discriminate; try (intros _ _; exact W);
    intros _ E; now apply negb_false_iff in E.
Qed.

Lemma handle_well_formed (rq : request) (db : Store) :
  Forall (fun r => well_formed r = true) db ->
  nulls_title_or_progress rq = false ->
  fst (handle rq db) <> Failed ServerError
  /\ Forall (fun r => well_formed r = true) (snd (handle rq db)).
Proof.
  intros F U. destruct rq as [now b| |task_id|task_id b|task_id]; unfold handle.
  - rewrite POST_tasks_spec.
    destruct (title_missing_or_blank (Body.title b)); cbn [orb reply fst snd];
      [split; [discriminate|exact F]|].
    destruct (supplied_progress_not_enumerated (Body.progress b)) eqn:P;
      cbn [reply fst snd]; [split; [discriminate|exact F]|].
    split; [discriminate|]. apply Forall_app. split; [exact F|].
    constructor; [|constructor]. now apply created_row_well_formed.
  - rewrite GET_tasks_spec.
    assert (F' : Forall (fun r => well_formed r = true) (order_by_added_on_desc db)).
    { rewrite Forall_forall in *. intros r Hr. apply F.
      now apply (Permutation_in _ (order_by_perm db)). }
    destruct (well_formed_from_orm_list _ F') as [outs O]. rewrite O.
    split; [discriminate|exact F].
  - rewrite GET_task_spec. destruct (query_first task_id db) as [task|] eqn:Q.
    + apply query_first_in in Q. rewrite Forall_forall in F.
      destruct (well_formed_from_orm task (F _ Q)) as [out O]. rewrite O.
      split; [discriminate|]. now rewrite Forall_forall.
    + split; [discriminate|exact F].
  - destruct (query_first task_id db) as [task|] eqn:Q.
    + rewrite (PUT_task_found task_id b db task Q).
      destruct (progress_string_not_enumerated (Body.progress b)) eqn:P;
        [split; [discriminate|exact F]|].
      assert (Wt : well_formed task = true).
      { apply query_first_in in Q. rewrite Forall_forall in F. now apply F. }
      assert (W : well_formed (patched b task) = true)
        by (now apply patched_well_formed).
      assert (N : TaskItem.not_null (patched b task) = true).
      { unfold well_formed in W. now apply andb_true_iff in W as [W _]. }
      rewrite N. destruct (well_formed_from_orm _ W) as [out O]. rewrite O.
      split; [discriminate|]. now apply write_row_forall.
    + rewrite PUT_task_spec, edit_parse_spec, Q.
      destruct (progress_string_not_enumerated _); cbn [reply fst snd];
        (split; [discriminate|exact F]).
  - rewrite DELETE_task_spec. destruct (query_first task_id db); cbn [reply fst snd].
    + split; [discriminate|]. now apply drop_row_forall.
    + split; [discriminate|exact F].
Qed.

(** X9. In a run from the empty store in which every id named is in the
    range of a 64-bit integer and no update sets title or progress to an
    explicit null, no request ends in a server error, and every stored
    record has a title and one of the three enumerated progress values. *)
Theorem no_server_error_without_nulls (rqs : list request) :
  existsb id_out_of_range rqs = false ->
  existsb nulls_title_or_progress rqs = false ->
  ~ In (Failed ServerError) (fst (run rqs []))
  /\ Forall (fun r => well_formed r = true) (snd (run rqs [])).
Proof.
  assert (G : forall db,
             Forall (fun r => well_formed r = true) db ->
             existsb nulls_title_or_progress rqs = false ->
             ~ In (Failed ServerError) (fst (run rqs db))
             /\ Forall (fun r => well_formed r = true) (snd (run rqs db))).
  { induction rqs as [|rq rqs IH]; intros db F U; [now split; [intros []|]|].
    cbn [existsb] in U. apply orb_false_elim in U as [Urq U].
    destruct (handle_well_formed rq db F Urq) as [E F'].
    destruct (IH _ F' U) as [NI F'']. rewrite run_cons. cbn [fst snd].
    split; [|exact F'']. intros [H|H]; [now apply E|now apply NI]. }
  intros _. apply G. constructor.
Qed.

Lemma no_server_error_without_nulls_witness :
  let rqs := [Create 10 (body_title "a"); Update 1 (body_title "  ");
              Update 1 (Body.mk Unset Null (Val "completed") Null); ListAll;
              Delete 1; GetOne 1] in
  ~ In (Failed ServerError) (fst (run rqs []))
  /\ Forall (fun r => well_formed r = true) (snd (run rqs [])).
Proof.
  apply (no_server_error_without_nulls
           [Create 10 (body_title "a"); Update 1 (body_title "  ");
            Update 1 (Body.mk Unset Null (Val "completed") Null); ListAll;
            Delete 1; GetOne 1]);
    reflexivity.
Defined.

(** ** Listings of ordered tables *)

Lemma insert_desc_front (x : TaskItem.t) (l : list TaskItem.t) :
  Forall (not_older x) l -> insert_desc x l = x :: l.
Proof.
  intros F. destruct l as [|y l]; [reflexivity|]. cbn [insert_desc].
  inversion F as [|? ? Hy _]; subst. unfold not_older in Hy.
  assert (E : (TaskItem.added_on x <? TaskItem.added_on y) = false)
    by (apply Z.ltb_ge; lia).
  now rewrite E.
Qed.

Lemma insert_desc_back (x : TaskItem.t) (l : list TaskItem.t) :
  Forall (older x) l -> insert_desc x l = l ++ [x].
Proof.
  induction 1 as [|y l Hy F IH]; [reflexivity|]. cbn [insert_desc].
  unfold older in Hy.
  assert (E : (TaskItem.added_on x <? TaskItem.added_on y) = true)
    by (apply Z.ltb_lt; lia).
  now rewrite E, IH.
Qed.

(** X10. A table whose rows are already in descending order of added_on
    is listed as it is; hence listing what a listing returned changes
    nothing. *)
Theorem listing_of_descending_table (db : Store) :
  (StronglySorted not_older db -> order_by_added_on_desc db = db)
  /\ order_by_added_on_desc (order_by_added_on_desc db)
     = order_by_added_on_desc db.
Proof.
  assert (G : forall l, StronglySorted not_older l -> order_by_added_on_desc l = l).
  { induction 1 as [|x l S IH F]; [reflexivity|].
    cbn [order_by_added_on_desc fold_right].
    fold (order_by_added_on_desc l). rewrite IH. now apply insert_desc_front. }
  split; [apply G|apply G, order_by_sorted].
Qed.

Lemma listing_of_descending_table_witness :
  let db := [TaskItem.mk 2 (Some "b") None (Some "pending") 7 None;
             TaskItem.mk 5 (Some "e") None (Some "pending") 7 None;
             TaskItem.mk 1 (Some "a") None (Some "pending") 3 None] in
  order_by_added_on_desc db = db.
Proof.
  apply (proj1 (listing_of_descending_table
                  [TaskItem.mk 2 (Some "b") None (Some "pending") 7 None;
                   TaskItem.mk 5 (Some "e") None (Some "pending") 7 None;
                   TaskItem.mk 1 (Some "a") None (Some "pending") 3 None])).
  repeat constructor; unfold not_older; simpl; lia.
Defined.

(** X11. When every record of the table was created strictly later than
    the records before it, the listing handler returns the table in
    exactly the reverse order, the newest record first. *)
Theorem listing_newest_first (db : Store) :
  StronglySorted older db ->
  get_all_tasks db = (Ok (rev db), db).
Proof.
  intros S. unfold get_all_tasks, ret. f_equal. f_equal.
  induction S as [|x l S IH F]; [reflexivity|].
  cbn [order_by_added_on_desc fold_right rev].
  fold (order_by_added_on_desc l). rewrite IH. apply insert_desc_back.
  rewrite Forall_forall in *. intros y Hy. apply F. now apply in_rev.
Qed.

Lemma listing_newest_first_witness :
  let db := [TaskItem.mk 1 (Some "a") None (Some "pending") 3 None;
             TaskItem.mk 2 (Some "b") None (Some "pending") 7 None;
             TaskItem.mk 3 (Some "c") None (Some "pending") 8 None] in
  get_all_tasks db = (Ok (rev db), db).
Proof.
  apply (listing_newest_first
           [TaskItem.mk 1 (Some "a") None (Some "pending") 3 None;
            TaskItem.mk 2 (Some "b") None (Some "pending") 7 None;
            TaskItem.mk 3 (Some "c") None (Some "pending") 8 None]).
  repeat constructor; unfold older; simpl; lia.
Defined.

(** ** The size of the table *)

Lemma drop_row_shorter (task_id : Z) (db : Store) :
  In task_id (ids db) ->
  (List.length (drop_row task_id db) < List.length db)%nat.
Proof.
  unfold drop_row, ids. induction db as [|r db IH]; [intros []|].
  cbn [map filter List.length]. intros H.
  destruct (TaskItem.id r =? task_id) eqn:E; cbn [negb List.length].
  - pose proof (filter_length_le
                  (fun r0 => negb (TaskItem.id r0 =? task_id)) db). lia.
  - apply Z.eqb_neq in E. destruct H as [H|H]; [congruence|].
    apply IH in H. lia.
Qed.

(** X12. The answer tells what happened to the table: a creation that
    answers with a record has appended exactly one row, with the id of
    that record; a delete that answers with no content has removed at
    least one row; after every other answer the table holds the same ids
    in the same order as before. *)
Theorem answer_tells_table_change (rq : request) (db : Store) :
  match fst (handle rq db) with
  | Created out =>
      exists row, snd (handle rq db) = db ++ [row]
                  /\ TaskItem.id row = TaskOut.id out
  | NoContent =>
      (List.length (snd (handle rq db)) < List.length db)%nat
  | _ => ids (snd (handle rq db)) = ids db
  end.
Proof.
  destruct rq as [now b| |task_id|task_id b|task_id]; unfold handle.
  - rewrite POST_tasks_spec. destruct (_ || _); cbn [reply fst snd];
      [reflexivity|]. now exists (created_row now b db).
  - rewrite GET_tasks_spec. now destruct (TaskOut.from_orm_list _).
  - rewrite GET_task_spec. destruct (query_first task_id db) as [t|];
      [now destruct (TaskOut.from_orm t)|reflexivity].
  - rewrite PUT_task_spec. destruct (EditTask.parse b); [|reflexivity].
    destruct (query_first task_id db) as [t|]; [|reflexivity]. cbv zeta.
    destruct (TaskItem.not_null _); [|reflexivity].
    destruct (TaskOut.from_orm _); cbn [reply fst snd]; apply ids_write_row.
  - rewrite DELETE_task_spec. destruct (query_first task_id db) as [t|] eqn:Q;
      cbn [reply fst snd]; [|reflexivity].
    apply drop_row_shorter.
    destruct (In_dec Z.eq_dec task_id (ids db)) as [H|H]; [exact H|].
    apply query_first_none_iff in H. congruence.
Qed.

(** ** Reading back *)

(** X13. When an update answers with a record, a get on the same id
    right after answers with the same record and changes nothing. *)
Theorem update_then_get (task_id : Z) (b : Body.t) (db : Store) (out : TaskOut.t) :
  fst (PUT_task task_id b db) = Ok out ->
  GET_task task_id (snd (PUT_task task_id b db))
  = (Ok out, snd (PUT_task task_id b db)).
Proof.
  destruct (query_first task_id db) as [task|] eqn:Q.
  - rewrite (PUT_task_found task_id b db task Q).
    destruct (progress_string_not_enumerated _); [discriminate|].
    destruct (TaskItem.not_null _); [|discriminate].
    cbn [fst snd]. intros O. rewrite GET_task_spec.
    rewrite (query_first_write_row task_id (patched b task) db);
      [now rewrite O| |congruence].
    cbn [patched TaskItem.id]. now apply query_first_id in Q.
  - rewrite PUT_task_spec, Q. now destruct (EditTask.parse b).
Qed.

Lemma update_then_get_witness :
  let db := [TaskItem.mk 1 (Some "a") None (Some "pending") 10 None] in
  let b := Body.mk Unset (Val "n") (Val "completed") Unset in
  GET_task 1 (snd (PUT_task 1 b db))
  = (Ok (TaskOut.mk 1 "a" (Some "n") "completed" 10 None),
     snd (PUT_task 1 b db)).
Proof.
  apply (update_then_get 1 (Body.mk Unset (Val "n") (Val "completed") Unset)
           [TaskItem.mk 1 (Some "a") None (Some "pending") 10 None]).
  reflexivity.
Defined.

Lemma from_orm_list_in (l : list TaskItem.t) (outs : list TaskOut.t)
    (r : TaskItem.t) :
  TaskOut.from_orm_list l = Ok outs -> In r l ->
  exists o, TaskOut.from_orm r = Ok o /\ In o outs.
Proof.
  revert outs. induction l as [|x l IH]; intros outs L H; [destruct H|].
  simpl in L. destruct (TaskOut.from_orm x) as [o|] eqn:O; [|discriminate].
  simpl in L. destruct (TaskOut.from_orm_list l) as [os|]; [|discriminate].
  simpl in L. injection L as <-. destruct H as [->|H].
  - exists o. split; [exact O|now left].
  - destruct (IH os eq_refl H) as [o' [O' I]]. exists o'. split; [exact O'|now right].
Qed.

Lemma from_orm_list_length (l : list TaskItem.t) (outs : list TaskOut.t) :
  TaskOut.from_orm_list l = Ok outs -> List.length outs = List.length l.
Proof.
  intros L. apply from_orm_list_ids in L. unfold ids in L.
  apply (f_equal (@List.length Z)) in L. now rewrite !length_map in L.
Qed.

(** X14. After a creation that answers with a record, every listing
    that is answered contains that record and has one entry per stored
    row, that is one more than the table had before. *)
Theorem create_then_listed (now : Z) (b : Body.t) (db : Store)
    (out : TaskOut.t) (outs : list TaskOut.t) :
  fst (POST_tasks now b db) = Ok out ->
  fst (GET_tasks (snd (POST_tasks now b db))) = Ok outs ->
  In out outs /\ List.length outs = S (List.length db).
Proof.
  rewrite POST_tasks_spec. destruct (_ || _); [discriminate|].
  cbn [fst snd]. intros [= <-]. rewrite GET_tasks_spec. cbn [fst]. intros L.
  split.
  - destruct (from_orm_list_in _ _ (created_row now b db) L) as [o [O I]].
    + apply (Permutation_in _ (Permutation_sym (order_by_perm _))).
      apply in_or_app. right. now left.
    + cbn in O. injection O as <-. exact I.
  - rewrite (from_orm_list_length _ _ L).
    rewrite (Permutation_length (order_by_perm _)), length_app. simpl. lia.
Qed.

Lemma create_then_listed_witness :
  let db := [TaskItem.mk 1 (Some "a") None (Some "pending") 10 None] in
  let out := TaskOut.mk 2 "b" None "pending" 20 None in
  let outs := [out; TaskOut.mk 1 "a" None "pending" 10 None] in
  In out outs /\ List.length outs = S (List.length db).
Proof.
  apply (create_then_listed 20 (body_title "b")
           [TaskItem.mk 1 (Some "a") None (Some "pending") 10 None]);
    reflexivity.
Defined.

(** X15. In every store reached from the empty one, each stored record
    is the one a look-up of its id finds: a get on the id of a stored
    record answers from that very record. *)
Theorem stored_record_is_found (rqs : list request) (task : TaskItem.t) :
  let db := snd (run rqs []) in
  In task db ->
  query_first (TaskItem.id task) db = Some task
  /\ GET_task (TaskItem.id task) db = (TaskOut.from_orm task, db).
Proof.
  intros db H.
  assert (ND : NoDup (ids db)).
  { apply ascending_NoDup, run_ascending. constructor. }
  assert (Q : query_first (TaskItem.id task) db = Some task).
  { destruct (query_first (TaskItem.id task) db) as [t|] eqn:Q.
    - f_equal. apply (same_id_same_row db); auto.
      + now apply query_first_in in Q.
      + now apply query_first_id in Q.
    - apply query_first_none_iff in Q. elim Q. now apply in_map. }
  split; [exact Q|]. now rewrite GET_task_spec, Q.
Qed.

Lemma stored_record_is_found_witness :
  let rqs := [Create 10 (body_title "a"); Create 20 (body_title "b")] in
  let task := TaskItem.mk 2 (Some "b") None (Some "pending") 20 None in
  query_first 2 (snd (run rqs [])) = Some task
  /\ GET_task 2 (snd (run rqs [])) = (TaskOut.from_orm task, snd (run rqs [])).
Proof.
  apply (stored_record_is_found
           [Create 10 (body_title "a"); Create 20 (body_title "b")]
           (TaskItem.mk 2 (Some "b") None (Some "pending") 20 None)).
  right. left. reflexivity.
Defined.

(** ** Updates of different records *)

Lemma PUT_task_store (task_id : Z) (b : Body.t) (db : Store) :
  snd (PUT_task task_id b db) =
  match query_first task_id db with
  | Some task =>
      if committed b task then write_row (patched b task) db else db
  | None => db
  end.
Proof.
  destruct (query_first task_id db) as [task|] eqn:Q.
  - rewrite (PUT_task_found task_id b db task Q). unfold committed.
    destruct (progress_string_not_enumerated _); [reflexivity|].
    now destruct (TaskItem.not_null _).
  - rewrite PUT_task_spec, Q. now destruct (EditTask.parse b).
Qed.

Lemma write_row_comm (t1 t2 : TaskItem.t) (db : Store) :
  TaskItem.id t1 <> TaskItem.id t2 ->
  write_row t1 (write_row t2 db) = write_row t2 (write_row t1 db).
Proof.
  intros N. unfold write_row. rewrite !map_map. apply map_ext. intros r.
  destruct (TaskItem.id r =? TaskItem.id t2) eqn:E2;
    destruct (TaskItem.id r =? TaskItem.id t1) eqn:E1;
    rewrite ?E1, ?E2; try reflexivity.
  - apply Z.eqb_eq in E1, E2. congruence.
  - assert (F : (TaskItem.id t2 =? TaskItem.id t1) = false)
      by (apply Z.eqb_neq; congruence).
    now rewrite ?F, ?E1, ?E2.
  - assert (F : (TaskItem.id t1 =? TaskItem.id t2) = false)
      by (apply Z.eqb_neq; congruence).
    now rewrite ?F, ?E1, ?E2.
Qed.

(** X16. Updates of two different ids do not interfere: served in
    either order they leave the same store. *)
Theorem updates_commute (i j : Z) (bi bj : Body.t) (db : Store) :
  i <> j ->
  snd (PUT_task j bj (snd (PUT_task i bi db)))
  = snd (PUT_task i bi (snd (PUT_task j bj db))).
Proof.
  intros N.
  rewrite (PUT_task_store i bi db), (PUT_task_store j bj db).
  destruct (query_first i db) as [ti|] eqn:Qi;
    destruct (query_first j db) as [tj|] eqn:Qj;
    try pose proof (query_first_id _ _ _ Qi) as Ii;
    try pose proof (query_first_id _ _ _ Qj) as Ij;
    try destruct (committed bi ti) eqn:Ci;
    try destruct (committed bj tj) eqn:Cj;
    rewrite !PUT_task_store;
    rewrite ?query_first_write_row_other
      by (cbn [patched TaskItem.id]; congruence);
    rewrite ?Qi, ?Qj, ?Ci, ?Cj; try reflexivity.
  apply write_row_comm. cbn [patched TaskItem.id]. congruence.
Qed.

Lemma updates_commute_witness :
  let db := snd (run [Create 10 (body_title "a"); Create 20 (body_title "b")] []) in
  snd (PUT_task 2 (body_title "y") (snd (PUT_task 1 (body_title "x") db)))
  = snd (PUT_task 1 (body_title "x") (snd (PUT_task 2 (body_title "y") db))).
Proof.
  apply (updates_commute 1 2 (body_title "x") (body_title "y")). discriminate.
Defined.
